(** * ClauseWise text-analysis core: a shallow embedding in Rocq

    Modelled sources:
    - [src/utils/clause_analyzer.py]  (ClauseAnalyzer)
    - [src/utils/doc_classifier.py]   (DocumentClassifier)
    - [src/utils/ner_extractor.py]    (LegalNERExtractor)
    - [src/utils/granite_client.py]   (GraniteClient: the reply extraction)

    Python strings are modelled as ASCII [string]s; [str.lower], [str.strip],
    [str.split] and the regular-expression class [\s] follow CPython on the
    ASCII range.  The text-completion service ([self.granite.generate]) is an
    opaque collaborator: its answer is an [outcome], either a returned string
    or a raised exception carrying its message. *)

From Stdlib Require Import String Ascii List Bool Arith Lia ZArith QArith Qround.
From Stdlib Require Import Numbers.DecimalString QArith.Qminmax Lqa.
From Stdlib Require Import Sorted Permutation.
Import ListNotations.
Open Scope nat_scope.

(* ------------------------------------------------------------------ *)
(** ** Python string primitives *)

(** What the text-completion service did with one request. *)
Inductive outcome :=
| Returned (response : string)
| Raised (message : string).

Module PyStr.

(** [str.isspace] on the ASCII range: \t \n \v \f \r, \x1c-\x1f and space.
    The same set is used by [str.split()], [str.strip()] and regex [\s]. *)
Definition is_space (c : ascii) : bool :=
  let n := nat_of_ascii c in
  ((9 <=? n) && (n <=? 13)) || ((28 <=? n) && (n <=? 32)).

Definition is_upper (c : ascii) : bool :=
  let n := nat_of_ascii c in (65 <=? n) && (n <=? 90).

Definition is_lower (c : ascii) : bool :=
  let n := nat_of_ascii c in (97 <=? n) && (n <=? 122).

Definition is_cased (c : ascii) : bool := is_upper c || is_lower c.

Definition lower_char (c : ascii) : ascii :=
  if is_upper c then ascii_of_nat (nat_of_ascii c + 32) else c.

Definition upper_char (c : ascii) : ascii :=
  if is_lower c then ascii_of_nat (nat_of_ascii c - 32) else c.

(** [s.lower()] *)
Fixpoint lower (s : string) : string :=
  match s with
  | EmptyString => EmptyString
  | String c s' => String (lower_char c) (lower s')
  end.

(** [s.lstrip()] *)
Fixpoint lstrip (s : string) : string :=
  match s with
  | EmptyString => EmptyString
  | String c s' => if is_space c then lstrip s' else s
  end.

(** [s.rstrip()] *)
Fixpoint rstrip (s : string) : string :=
  match s with
  | EmptyString => EmptyString
  | String c s' =>
      let r := rstrip s' in
      match r with
      | EmptyString => if is_space c then EmptyString else String c EmptyString
      | _ => String c r
      end
  end.

(** [s.strip()] *)
Definition strip (s : string) : string := rstrip (lstrip s).

(** [s.split()] with no separator: maximal runs of non-whitespace.
    [split_go s] returns the word that starts [s] (possibly empty) and the
    words after it. *)
Fixpoint split_go (s : string) : string * list string :=
  match s with
  | EmptyString => (EmptyString, [])
  | String c s' =>
      let (w, ws) := split_go s' in
      if is_space c
      then (EmptyString, match w with EmptyString => ws | _ => w :: ws end)
      else (String c w, ws)
  end.

Definition split (s : string) : list string :=
  let (w, ws) := split_go s in
  match w with EmptyString => ws | _ => w :: ws end.

(** [needle in hay] *)
Fixpoint contains (needle hay : string) : bool :=
  String.prefix needle hay ||
  match hay with
  | EmptyString => false
  | String _ hay' => contains needle hay'
  end.

(** [s.replace(' ', '')] *)
Fixpoint remove_spaces (s : string) : string :=
  match s with
  | EmptyString => EmptyString
  | String c s' =>
      if Ascii.eqb c " "%char then remove_spaces s' else String c (remove_spaces s')
  end.

(** [s.title()]: a cased character is upper-cased when the previous
    character is not cased, lower-cased otherwise. *)
Fixpoint title_go (prev_cased : bool) (s : string) : string :=
  match s with
  | EmptyString => EmptyString
  | String c s' =>
      String (if is_cased c then (if prev_cased then lower_char c else upper_char c) else c)
             (title_go (is_cased c) s')
  end.

Definition title (s : string) : string := title_go false s.

(** [s[a:b]] for indices [0 <= a], [0 <= b]. *)
Definition slice (s : string) (a b : nat) : string := substring a (b - a) s.

(** [s[:n]] for any Python int [n] (negative [n] counts from the end). *)
Definition slice_to (s : string) (n : Z) : string :=
  if (0 <=? n)%Z then substring 0 (Z.to_nat n) s
  else substring 0 (String.length s - Z.to_nat (- n)) s.

(** [str(n)] for a non-negative int *)
Definition of_nat (n : nat) : string := NilEmpty.string_of_uint (Nat.to_uint n).

(** [s.split(sep, 1)[1]] for a one-character separator occurring in [s]. *)
Fixpoint after_first (sep : ascii) (s : string) : string :=
  match s with
  | EmptyString => EmptyString
  | String c s' => if Ascii.eqb c sep then s' else after_first sep s'
  end.

(** [s.split('\n')]: pieces between newlines, empty pieces kept. *)
Fixpoint split_on (sep : ascii) (s : string) : list string :=
  match s with
  | EmptyString => [EmptyString]
  | String c s' =>
      if Ascii.eqb c sep then EmptyString :: split_on sep s'
      else match split_on sep s' with
           | w :: ws => String c w :: ws
           | [] => [String c EmptyString]
           end
  end.

Definition nl : ascii := ascii_of_nat 10.

End PyStr.

(* ------------------------------------------------------------------ *)
(** ** The regular-expression fragment used by the source

    Every pattern of the source that is run by this model is a sequence of
    single-character atoms: a literal, a character class, or a class under
    the greedy [+] or [*] quantifier.  [re_match] is Python's backtracking
    matcher for that fragment: a quantified class first takes its longest
    run and then gives characters back one at a time. *)

Module Regex.

Inductive atom :=
| Lit (c : ascii)
| Cls (f : ascii -> bool)
| Plus (f : ascii -> bool)
| Star (f : ascii -> bool).

(** a literal word as a sequence of [Lit] atoms *)
Fixpoint lits (s : string) : list atom :=
  match s with
  | EmptyString => []
  | String c s' => Lit c :: lits s'
  end.

(** [\s] *)
Definition ws : ascii -> bool := PyStr.is_space.

Fixpoint run_len (f : ascii -> bool) (s : list ascii) : nat :=
  match s with
  | [] => 0
  | c :: s' => if f c then S (run_len f s') else 0
  end.

(** Backtracking over the run length of a quantified class: try the
    continuation [m] after [k], [k-1], ..., [1] characters ([try_runs]) or
    after [k], ..., [0] characters ([try_runs0]). *)
Fixpoint try_runs (m : list ascii -> option (list ascii)) (s : list ascii) (k : nat)
  : option (list ascii) :=
  match k with
  | 0 => None
  | S k' =>
      match m (skipn (S k') s) with
      | Some r => Some r
      | None => try_runs m s k'
      end
  end.

Fixpoint try_runs0 (m : list ascii -> option (list ascii)) (s : list ascii) (k : nat)
  : option (list ascii) :=
  match m (skipn k s) with
  | Some r => Some r
  | None => match k with 0 => None | S k' => try_runs0 m s k' end
  end.

(** [re_match p s]: the suffix of [s] left after [p] matches at the start
    of [s], or [None]. *)
Fixpoint re_match (p : list atom) (s : list ascii) : option (list ascii) :=
  match p with
  | [] => Some s
  | Lit c :: p' =>
      match s with
      | c' :: s' => if Ascii.eqb c c' then re_match p' s' else None
      | [] => None
      end
  | Cls f :: p' =>
      match s with
      | c' :: s' => if f c' then re_match p' s' else None
      | [] => None
      end
  | Plus f :: p' => try_runs (re_match p') s (run_len f s)
  | Star f :: p' => try_runs0 (re_match p') s (run_len f s)
  end.

(** Alternation [p1|p2|...] as a whole pattern: the first alternative that
    matches wins. *)
Fixpoint re_match_alt (ps : list (list atom)) (s : list ascii) : option (list ascii) :=
  match ps with
  | [] => None
  | p :: ps' =>
      match re_match p s with
      | Some r => Some r
      | None => re_match_alt ps' s
      end
  end.

(** [len(re.findall(p, s))]: scan left to right; after a match resume at
    its end, otherwise move one character on.  The patterns counted never
    match the empty string, so the scan always advances; [fuel] is the
    length of [s] plus one. *)
Fixpoint findall_count_fuel (fuel : nat) (p : list atom) (s : list ascii) : nat :=
  match fuel with
  | 0 => 0
  | S fuel' =>
      match re_match p s with
      | Some r => S (findall_count_fuel fuel' p r)
      | None =>
          match s with
          | [] => 0
          | _ :: s' => findall_count_fuel fuel' p s'
          end
      end
  end.

Definition findall_count (p : list atom) (s : string) : nat :=
  let l := list_ascii_of_string s in
  findall_count_fuel (S (List.length l)) p l.

(** [re.split(alts, s)]: the pieces of [s] between successive matches of
    the alternation; [cur] is the current piece, reversed. *)
Fixpoint split_fuel (fuel : nat) (alts : list (list atom)) (cur : list ascii)
         (s : list ascii) : list (list ascii) :=
  match fuel with
  | 0 => [rev cur ++ s]
  | S fuel' =>
      match re_match_alt alts s with
      | Some r => rev cur :: split_fuel fuel' alts [] r
      | None =>
          match s with
          | [] => [rev cur]
          | c :: s' => split_fuel fuel' alts (c :: cur) s'
          end
      end
  end.

Definition re_split (alts : list (list atom)) (s : string) : list string :=
  let l := list_ascii_of_string s in
  map string_of_list_ascii (split_fuel (S (List.length l)) alts [] l).

End Regex.

(* ------------------------------------------------------------------ *)
(** ** Shared helpers *)

Module Py.

(** [sorted(l, key=key, reverse=True)] and [l.sort(key=key, reverse=True)]:
    Python's sort is stable also with [reverse=True], so elements of equal
    key keep their original order.  Insertion sort with that property. *)
Fixpoint insert_desc {A} (key : A -> nat) (x : A) (l : list A) : list A :=
  match l with
  | [] => [x]
  | y :: l' => if key y <? key x then x :: y :: l' else y :: insert_desc key x l'
  end.

Definition sort_desc {A} (key : A -> nat) (l : list A) : list A :=
  fold_left (fun acc x => insert_desc key x acc) l [].

(** Python's [round(x)] on an exact rational: round half to even. *)
Definition round_half_even (q : Q) : Z :=
  let f := Qfloor q in
  let d := (q - inject_Z f)%Q in
  if Qlt_le_dec (1 # 2) d then (f + 1)%Z
  else if Qeq_dec d (1 # 2) then (if Z.even f then f else f + 1)%Z
  else f.

(** [round(x, 2)] *)
Definition round2 (q : Q) : Q := (inject_Z (round_half_even (q * 100)) / 100)%Q.

End Py.

(* ------------------------------------------------------------------ *)
(** ** DocumentClassifier  (src/utils/doc_classifier.py) *)

Module DocClassifier.
Import Regex.

(** [[-\s]] *)
Definition dash_or_ws (c : ascii) : bool := Ascii.eqb c "-"%char || ws c.

(** words separated by [\s+], e.g. [r'statement\s+of\s+work'] *)
Fixpoint ws_sep (w : string) (ws' : list string) : list atom :=
  match ws' with
  | [] => lits w
  | w' :: rest => app (lits w) (Plus ws :: ws_sep w' rest)
  end.

Local Open Scope string_scope.

Record signature := {
  sig_name : string;
  keywords : list string;
  patterns : list (list atom)
}.

(** [self.document_signatures], in insertion order (every weight is 1.0
    and is never read). *)
Definition document_signatures : list signature := [
  {| sig_name := "Non-Disclosure Agreement (NDA)";
     keywords := ["confidential"; "non-disclosure"; "proprietary information";
                  "trade secret"; "confidentiality"; "receiving party"; "disclosing party"];
     patterns := [app (lits "non") (Cls dash_or_ws :: lits "disclosure"); lits "NDA";
                  ws_sep "confidentiality" ["agreement"]] |};
  {| sig_name := "Employment Contract";
     keywords := ["employee"; "employer"; "employment"; "salary"; "compensation";
                  "job title"; "duties"; "responsibilities"; "benefits"; "vacation";
                  "termination of employment"; "at-will"];
     patterns := [ws_sep "employment" ["agreement"]; ws_sep "offer" ["letter"];
                  ws_sep "employee" ["handbook"]] |};
  {| sig_name := "Lease Agreement";
     keywords := ["lease"; "tenant"; "landlord"; "rent"; "premises"; "property";
                  "security deposit"; "maintenance"; "lease term"; "rental"];
     patterns := [ws_sep "lease" ["agreement"]; ws_sep "rental" ["agreement"];
                  lits "tenancy"] |};
  {| sig_name := "Service Agreement";
     keywords := ["services"; "service provider"; "client"; "deliverables";
                  "scope of work"; "professional services"; "consulting";
                  "independent contractor"; "statement of work"];
     patterns := [ws_sep "service" ["agreement"]; ws_sep "consulting" ["agreement"];
                  ws_sep "professional" ["services"]; ws_sep "statement" ["of"; "work"];
                  lits "SOW"] |};
  {| sig_name := "Purchase Agreement";
     keywords := ["purchase"; "buyer"; "seller"; "goods"; "merchandise";
                  "delivery"; "shipping"; "purchase price"; "payment terms"];
     patterns := [ws_sep "purchase" ["agreement"]; ws_sep "sales" ["agreement"];
                  ws_sep "purchase" ["order"]; ws_sep "bill" ["of"; "sale"]] |};
  {| sig_name := "Partnership Agreement";
     keywords := ["partner"; "partnership"; "capital contribution"; "profit sharing";
                  "loss sharing"; "management"; "dissolution"; "partnership interest"];
     patterns := [ws_sep "partnership" ["agreement"]; ws_sep "joint" ["venture"]] |};
  {| sig_name := "License Agreement";
     keywords := ["license"; "licensor"; "licensee"; "intellectual property";
                  "usage rights"; "royalty"; "sublicense"; "license fee"];
     patterns := [ws_sep "license" ["agreement"]; ws_sep "licensing" ["agreement"];
                  ws_sep "software" ["license"]] |};
  {| sig_name := "Loan Agreement";
     keywords := ["loan"; "lender"; "borrower"; "principal"; "interest rate";
                  "repayment"; "default"; "collateral"; "promissory note"];
     patterns := [ws_sep "loan" ["agreement"]; ws_sep "promissory" ["note"];
                  ws_sep "credit" ["agreement"]] |};
  {| sig_name := "Settlement Agreement";
     keywords := ["settlement"; "dispute"; "claim"; "release"; "parties agree";
                  "consideration"; "waiver"; "mutual release"];
     patterns := [ws_sep "settlement" ["agreement"]; ws_sep "release" ["agreement"];
                  lits "compromise"] |};
  {| sig_name := "Franchise Agreement";
     keywords := ["franchise"; "franchisor"; "franchisee"; "territory";
                  "operating system"; "franchise fee"; "royalty"];
     patterns := [ws_sep "franchise" ["agreement"]; lits "franchising"] |}
].

Definition signature_names : list string := map sig_name document_signatures.

(** the score of one signature on an already lower-cased text: +1.0 per
    keyword found, +2.0 per pattern match (scores are integral floats) *)
Definition signature_score (sg : signature) (text_lower : string) : nat :=
  let kw := fold_left
              (fun score keyword =>
                 if PyStr.contains (PyStr.lower keyword) text_lower then score + 1 else score)
              (keywords sg) 0 in
  fold_left (fun score pattern => score + findall_count pattern text_lower * 2)
            (patterns sg) kw.

(** [_rule_based_classification] *)
Definition rule_based_classification (text : string) : list (string * nat) :=
  let text_lower := PyStr.lower text in
  map (fun sg => (sig_name sg, signature_score sg text_lower)) document_signatures.

(** [_ai_classification]: the answer parsed from the service's response.
    The prompt (with the text cut to 2000 characters) only influences the
    response, which is quantified over, so it is not modelled. *)
Definition parse_line (st : option string * string * string) (line : string)
  : option string * string * string :=
  let '(doc_type, confidence, reasoning) := st in
  let ll := PyStr.lower line in
  if PyStr.contains "document type:" ll then
    (Some (PyStr.strip (PyStr.after_first ":"%char line)), confidence, reasoning)
  else if PyStr.contains "confidence:" ll then
    (doc_type, PyStr.strip (PyStr.after_first ":"%char line), reasoning)
  else if PyStr.contains "reasoning:" ll then
    (doc_type, confidence, PyStr.strip (PyStr.after_first ":"%char line))
  else st.

(** [confidence_map.get(confidence.lower(), 70)] *)
Definition confidence_map (c : string) : Q :=
  if String.eqb c "high" then 90 else
  if String.eqb c "medium" then 70 else
  if String.eqb c "low" then 50 else 70.

Definition first_or_unknown (candidates : list string) : string :=
  match candidates with c :: _ => c | [] => "Unknown" end.

Record ai_result := { ai_type : string; ai_confidence : Q; ai_reasoning : string }.

Definition ai_classification (candidates : list string) (resp : outcome) : ai_result :=
  match resp with
  | Raised e =>
      {| ai_type := first_or_unknown candidates; ai_confidence := 50;
         ai_reasoning := "Error in AI classification: " ++ e |}
  | Returned response =>
      let '(doc_type, confidence, reasoning) :=
        fold_left parse_line (PyStr.split_on PyStr.nl response) (None, "Medium", "") in
      let confidence_score := confidence_map (PyStr.lower confidence) in
      let invalid :=
        match doc_type with
        | None => true
        | Some d => String.eqb d "" || negb (existsb (String.eqb d) signature_names)
        end in
      let doc_type' :=
        if invalid then
          let d := match doc_type with Some d => d | None => "" end in
          match find (fun known => PyStr.contains (PyStr.lower known) (PyStr.lower d))
                     signature_names with
          | Some known => known
          | None => first_or_unknown candidates
          end
        else match doc_type with Some d => d | None => "" end in
      {| ai_type := doc_type'; ai_confidence := confidence_score; ai_reasoning := reasoning |}
  end.

Record classification := {
  document_type : string;
  confidence : Q;
  method : string;
  rule_based_scores : list (string * nat);
  reasoning : string
}.

(** [classify_document(text, use_ai)]; [resp] is what the service does if
    it is called. *)
Definition classify_document (text : string) (use_ai : bool) (resp : outcome)
  : classification :=
  let rule_scores := rule_based_classification text in
  let top_candidates := firstn 3 (Py.sort_desc snd rule_scores) in
  let '(top_type, top_score) := hd (""%string, 0) top_candidates in
  if use_ai && Nat.ltb top_score 5 then
    let ai := ai_classification (map fst top_candidates) resp in
    {| document_type := ai_type ai; confidence := ai_confidence ai;
       method := "AI-enhanced"; rule_based_scores := top_candidates;
       reasoning := ai_reasoning ai |}
  else
    let conf := Qmin (inject_Z (Z.of_nat top_score) / 10 * 100) 100 in
    {| document_type := top_type; confidence := Py.round2 conf;
       method := "Rule-based"; rule_based_scores := top_candidates;
       reasoning := "Identified based on keyword and pattern matching" |}.

End DocClassifier.

(* ------------------------------------------------------------------ *)
(** ** ClauseAnalyzer  (src/utils/clause_analyzer.py) *)

Module ClauseAnalyzer.
Import Regex.
Local Open Scope string_scope.

(** [self.clause_types] *)
Definition clause_types : list string :=
  ["definitions"; "scope"; "term"; "termination"; "payment";
   "confidentiality"; "intellectual property"; "warranties";
   "liability"; "indemnification"; "force majeure"; "dispute resolution";
   "governing law"; "notices"; "amendments"; "severability"].

Definition any_in (words : list string) (text_lower : string) : bool :=
  existsb (fun word => PyStr.contains word text_lower) words.

(** [_identify_clause_type] *)
Definition identify_clause_type (text : string) : string :=
  let text_lower := PyStr.lower text in
  match find (fun clause_type =>
                PyStr.contains (PyStr.remove_spaces clause_type)
                               (PyStr.remove_spaces text_lower)) clause_types with
  | Some clause_type => PyStr.title clause_type
  | None =>
      if any_in ["define"; "definition"; "means"] text_lower then "Definitions"
      else if any_in ["terminate"; "termination"; "cancel"] text_lower then "Termination"
      else if any_in ["pay"; "payment"; "fee"; "compensation"] text_lower then "Payment"
      else if any_in ["confidential"; "secret"; "proprietary"] text_lower then "Confidentiality"
      else if any_in ["liable"; "liability"; "responsible"] text_lower then "Liability"
      else if any_in ["warrant"; "guarantee"; "represent"] text_lower then "Warranties"
      else "General"
  end.

Inductive clause_locator :=
| Number (n : string)
| Title (t : string).

Record clause := {
  locator : clause_locator;
  content : string;
  clause_type : string;
  word_count : nat
}.

(** The paragraph separator [r'\n\s*\n|\.\s*\n']. *)
Definition paragraph_separator : list (list atom) :=
  [[Lit PyStr.nl; Star ws; Lit PyStr.nl]; [Lit "."%char; Star ws; Lit PyStr.nl]].

Section Strategies.

(** The matches of the numbered-clause regex of [_extract_numbered_clauses]
    (a line starting with a label such as [1.] or [1.2.], then the body up
    to the next label line), evaluated by [re.finditer] with [re.MULTILINE],
    in order, as [(group(1), group(2))]. *)
Variable numbered_finditer : string -> list (string * string).

(** The matches of the section-header regex
    [r'(?:^|\n)\s*(?:ARTICLE\s+[IVX\d]+|SECTION\s+\d+|\d+\.)\s*[-–—]?\s*([A-Z\s]+)(?:\n|\r)']
    in order, as [(group(1), match.start(), match.end())]. *)
Variable header_finditer : string -> list (string * nat * nat).

(** [_extract_numbered_clauses] *)
Definition extract_numbered_clauses (text : string) : list clause :=
  concat (map (fun '(g1, g2) =>
                 let number := PyStr.strip g1 in
                 let content := PyStr.strip g2 in
                 if Nat.ltb 20 (String.length content) then
                   [{| locator := Number number; content := content;
                       clause_type := identify_clause_type content;
                       word_count := List.length (PyStr.split content) |}]
                 else [])
              (numbered_finditer text)).

(** the loop of [_extract_section_clauses] over the remaining matches *)
Fixpoint sections_go (text : string) (ms : list (string * nat * nat)) : list clause :=
  match ms with
  | [] => []
  | (g1, _, start) :: rest =>
      let title := PyStr.strip g1 in
      let end_ := match rest with
                  | (_, next_start, _) :: _ => next_start
                  | [] => String.length text
                  end in
      let content := PyStr.strip (PyStr.slice text start end_) in
      app (if Nat.ltb 50 (String.length content) then
             [{| locator := Title title; content := content;
                 clause_type := identify_clause_type (title ++ " " ++ content);
                 word_count := List.length (PyStr.split content) |}]
           else [])
          (sections_go text rest)
  end.

(** [_extract_section_clauses] *)
Definition extract_section_clauses (text : string) : list clause :=
  sections_go text (header_finditer text).

(** the loop of [_extract_paragraph_clauses]; [i] is the [enumerate] index *)
Fixpoint paragraphs_go (i : nat) (paragraphs : list string) : list clause :=
  match paragraphs with
  | [] => []
  | para :: rest =>
      let para := PyStr.strip para in
      app (if Nat.ltb 100 (String.length para) then
             [{| locator := Number ("P" ++ PyStr.of_nat (i + 1)); content := para;
                 clause_type := identify_clause_type para;
                 word_count := List.length (PyStr.split para) |}]
           else [])
          (paragraphs_go (S i) rest)
  end.

(** [_extract_paragraph_clauses] *)
Definition extract_paragraph_clauses (text : string) : list clause :=
  firstn 20 (paragraphs_go 0 (re_split paragraph_separator text)).

(** The three strategies, as recorded by a spy on each call. *)
Inductive strategy := Numbered | Sectioned | Paragraphs.

Definition call (log : list strategy) (st : strategy) (f : string -> list clause)
           (text : string) : list strategy * list clause :=
  (app log [st], f text).

(** [extract_clauses], together with the list of strategies it invoked. *)
Definition extract_clauses_traced (text : string) : list strategy * list clause :=
  let '(log1, numbered_clauses) := call [] Numbered extract_numbered_clauses text in
  match numbered_clauses with
  | _ :: _ => (log1, numbered_clauses)
  | [] =>
      let '(log2, section_clauses) := call log1 Sectioned extract_section_clauses text in
      match section_clauses with
      | _ :: _ => (log2, section_clauses)
      | [] => call log2 Paragraphs extract_paragraph_clauses text
      end
  end.

(** [extract_clauses] *)
Definition extract_clauses (text : string) : list clause :=
  snd (extract_clauses_traced text).

End Strategies.

Record simplification := {
  original : string;
  simplified : string;
  original_length : nat;
  simplified_length : nat;
  reduction_percentage : Q;
  error : option string
}.

(** the [except Exception as e] branch of [simplify_clause] *)
Definition simplify_error (clause_text msg : string) : simplification :=
  {| original := clause_text;
     simplified := "Error simplifying clause: " ++ msg;
     original_length := String.length clause_text;
     simplified_length := 0;
     reduction_percentage := 0;
     error := Some msg |}.

(** [simplify_clause(clause_text, max_length)]; [resp] is the outcome of
    [self.granite.generate].  An empty [clause_text] makes the division in
    [reduction_percentage] raise [ZeroDivisionError] inside the [try]. *)
Definition simplify_clause (clause_text : string) (max_length : Z) (resp : outcome)
  : simplification :=
  match resp with
  | Raised e => simplify_error clause_text e
  | Returned response =>
      let simplified := PyStr.strip response in
      let simplified :=
        if (Z.of_nat (String.length simplified) >? max_length)%Z
        then PyStr.slice_to simplified max_length ++ "..."
        else simplified in
      if Nat.eqb (String.length clause_text) 0 then simplify_error clause_text "division by zero"
      else
        {| original := clause_text;
           simplified := simplified;
           original_length := String.length clause_text;
           simplified_length := String.length simplified;
           reduction_percentage :=
             Py.round2 ((1 - inject_Z (Z.of_nat (String.length simplified))
                               / inject_Z (Z.of_nat (String.length clause_text))) * 100)%Q;
           error := None |}
  end.

End ClauseAnalyzer.

(* ------------------------------------------------------------------ *)
(** ** LegalNERExtractor  (src/utils/ner_extractor.py) *)

Module NER.
Import Regex.
Local Open Scope string_scope.

(** the values held by an entity record *)
Inductive pyval :=
| PStr (s : string)
| PInt (n : nat).

(** an entity record: a Python dict with string keys *)
Definition entity := list (string * pyval).

Fixpoint dict_get {A} (k : string) (d : list (string * A)) : option A :=
  match d with
  | [] => None
  | (k', v) :: d' => if String.eqb k k' then Some v else dict_get k d'
  end.

(** [d[k] = v] on an insertion-ordered dict *)
Fixpoint dict_set {A} (k : string) (v : A) (d : list (string * A)) : list (string * A) :=
  match d with
  | [] => [(k, v)]
  | (k', v') :: d' => if String.eqb k k' then (k, v) :: d' else (k', v') :: dict_set k v d'
  end.

Definition entity_name (e : entity) : string :=
  match dict_get "name" e with Some (PStr s) => s | _ => "" end.

Definition entity_count (e : entity) : nat :=
  match dict_get "count" e with Some (PInt n) => n | _ => 0 end.

(** [self.legal_terms] *)
Definition legal_terms : list string :=
  ["agreement"; "contract"; "covenant"; "warranty"; "indemnification";
   "liability"; "breach"; "termination"; "arbitration"; "jurisdiction";
   "confidentiality"; "non-disclosure"; "intellectual property";
   "consideration"; "force majeure"; "governing law"; "amendment";
   "severability"; "waiver"; "notice"; "assignment"; "subcontract"].

(** [self.obligation_keywords] *)
Definition obligation_keywords : list string :=
  ["shall"; "must"; "will"; "agrees to"; "obligated to"; "required to";
   "responsible for"; "undertakes to"; "covenant to"; "bound to"].

(** [_get_context(text, start, end, window=50)] *)
Definition get_context (text : string) (start end_ : nat) : string :=
  let context_start := start - 50 in
  let context_end := Nat.min (String.length text) (end_ + 50) in
  let context := PyStr.strip (PyStr.slice text context_start context_end) in
  let context := if Nat.ltb 0 context_start then "..." ++ context else context in
  if Nat.ltb context_end (String.length text) then context ++ "..." else context.

(** [s.replace(',', '')] *)
Fixpoint remove_commas (s : string) : string :=
  match s with
  | EmptyString => EmptyString
  | String c s' => if Ascii.eqb c ","%char then remove_commas s' else String c (remove_commas s')
  end.

(** The sentence separator [r'[.;]\s+']. *)
Definition dot_or_semicolon (c : ascii) : bool := Ascii.eqb c "."%char || Ascii.eqb c ";"%char.
Definition sentence_separator : list (list atom) := [[Cls dot_or_semicolon; Plus ws]].

Section Passes.

(** [re.finditer] results of the patterns of the six passes, in order:
    the groups each loop reads and [match.start()], [match.end()]. *)
Variable between_finditer : string -> list (string * string * string).   (* g1, g2, g0 *)
Variable referred_finditer : string -> list (string * string * string).  (* g1, g2, g0 *)
Variable org_finditer : string -> list (string * string).                (* g1, g0 *)
Variable date1_finditer date2_finditer date3_finditer :
  string -> list (string * nat * nat).                                   (* g0, start, end *)
Variable money1_finditer money2_finditer :
  string -> list (string * string * nat * nat).                          (* g0, g1, start, end *)
Variable money3_finditer :
  string -> list (string * string * string * nat * nat).                 (* g0, g1, g2, start, end *)
(** [re.finditer(r'\b' + re.escape(term) + r'\b', text_lower)] *)
Variable term_finditer : string -> string -> list (nat * nat).            (* start, end *)
Variable email_finditer phone_finditer : string -> list (string * nat * nat).

(** [_extract_parties] *)
Definition extract_parties (text : string) : list entity :=
  let parties :=
    concat (map (fun '(g1, g2, g0) =>
                   let party1 := PyStr.strip g1 in
                   let party2 := PyStr.strip g2 in
                   if Nat.ltb (String.length party1) 50 && Nat.ltb (String.length party2) 50 then
                     [[("name", PStr party1); ("role", PStr "Party 1"); ("context", PStr g0)];
                      [("name", PStr party2); ("role", PStr "Party 2"); ("context", PStr g0)]]
                   else [])
                (between_finditer text)) in
  let parties := app parties
    (concat (map (fun '(g1, g2, g0) =>
                    let full_name := PyStr.strip g1 in
                    let short_name := PyStr.strip g2 in
                    if Nat.ltb (String.length full_name) 100 then
                      [[("name", PStr full_name); ("alias", PStr short_name);
                        ("role", PStr "Party"); ("context", PStr g0)]]
                    else [])
                 (referred_finditer text))) in
  let parties :=
    fold_left (fun parties '(g1, g0) =>
                 let org_name := PyStr.strip g1 in
                 if Nat.ltb (String.length org_name) 100 &&
                    negb (existsb (String.eqb org_name) (map entity_name parties))
                 then app parties [[("name", PStr org_name); ("role", PStr "Organization");
                                    ("context", PStr g0)]]
                 else parties)
              (org_finditer text) parties in
  firstn 10 parties.

Definition date_record (text format : string) (m : string * nat * nat) : entity :=
  let '(g0, st, en) := m in
  [("date", PStr g0); ("format", PStr format); ("context", PStr (get_context text st en))].

(** [_extract_dates] *)
Definition extract_dates (text : string) : list entity :=
  firstn 20
    (map (date_record text "Month DD, YYYY") (date1_finditer text) ++
     map (date_record text "DD/MM/YYYY or MM/DD/YYYY") (date2_finditer text) ++
     map (date_record text "YYYY-MM-DD") (date3_finditer text))%list.

Definition usd_record (text : string) (m : string * string * nat * nat) : entity :=
  let '(g0, g1, st, en) := m in
  [("amount", PStr g0); ("value", PStr (remove_commas g1)); ("currency", PStr "USD");
   ("context", PStr (get_context text st en))].

(** [_extract_monetary_values] *)
Definition extract_monetary_values (text : string) : list entity :=
  firstn 15
    (map (usd_record text) (money1_finditer text) ++
     map (usd_record text) (money2_finditer text) ++
     map (fun '(g0, g1, g2, st, en) =>
            [("amount", PStr g0); ("value", PStr (remove_commas g1)); ("currency", PStr g2);
             ("context", PStr (get_context text st en))])
         (money3_finditer text))%list.

(** [_extract_obligations] *)
Definition extract_obligations (text : string) : list entity :=
  let sentences := re_split sentence_separator text in
  firstn 20
    (concat (map (fun sentence =>
                    match find (fun keyword => PyStr.contains (PyStr.lower keyword)
                                                              (PyStr.lower sentence))
                               obligation_keywords with
                    | Some keyword =>
                        [[("clause", PStr (PyStr.strip sentence)); ("keyword", PStr keyword);
                          ("type", PStr "obligation")]]
                    | None => []
                    end)
                 sentences)).

(** [_extract_legal_terms] *)
Definition extract_legal_terms (text : string) : list entity :=
  let text_lower := PyStr.lower text in
  let terms :=
    concat (map (fun term =>
                   match term_finditer term text_lower with
                   | [] => []
                   | ((st, en) :: _) as matches =>
                       [[("term", PStr term); ("count", PInt (List.length matches));
                         ("context", PStr (get_context text st en))]]
                   end)
                legal_terms) in
  firstn 15 (Py.sort_desc entity_count terms).

Definition contact_record (text kind : string) (m : string * nat * nat) : entity :=
  let '(g0, st, en) := m in
  [("type", PStr kind); ("value", PStr g0); ("context", PStr (get_context text st en))].

(** [_extract_contact_info] *)
Definition extract_contact_info (text : string) : list entity :=
  firstn 10
    (map (contact_record text "email") (email_finditer text) ++
     map (contact_record text "phone") (phone_finditer text))%list.

(** [extract_entities]: six assignments into a fresh [defaultdict(list)],
    returned as a plain dict. *)
Definition extract_entities (text : string) : list (string * list entity) :=
  let entities := [] in
  let entities := dict_set "parties" (extract_parties text) entities in
  let entities := dict_set "dates" (extract_dates text) entities in
  let entities := dict_set "monetary_values" (extract_monetary_values text) entities in
  let entities := dict_set "obligations" (extract_obligations text) entities in
  let entities := dict_set "legal_terms" (extract_legal_terms text) entities in
  dict_set "contact_info" (extract_contact_info text) entities.

End Passes.

End NER.

(* ------------------------------------------------------------------ *)
(** ** The clause-type rule as the specification words it *)

Module ClauseTypeSpec.
Import ClauseAnalyzer.
Local Open Scope string_scope.

(** The ordered fallback keyword groups of the specification
    (definitions, termination, payment, confidentiality, liability,
    warranty words), with the words the source lists. *)
Definition fallback_groups : list (list string * string) :=
  [(["define"; "definition"; "means"], "Definitions");
   (["terminate"; "termination"; "cancel"], "Termination");
   (["pay"; "payment"; "fee"; "compensation"], "Payment");
   (["confidential"; "secret"; "proprietary"], "Confidentiality");
   (["liable"; "liability"; "responsible"], "Liability");
   (["warrant"; "guarantee"; "represent"], "Warranties")].

(** [classifyClauseType] as specified: the first catalog type name whose
    space-stripped form occurs in the space-stripped lower-cased text, else
    the first fallback group with a word in the lower-cased text, else
    [General]. *)
Definition clause_type_by_spec (text : string) : string :=
  let text_lower := PyStr.lower text in
  match find (fun name => PyStr.contains (PyStr.remove_spaces name)
                                        (PyStr.remove_spaces text_lower)) clause_types with
  | Some name => PyStr.title name
  | None =>
      match find (fun g => any_in (fst g) text_lower) fallback_groups with
      | Some g => snd g
      | None => "General"
      end
  end.

End ClauseTypeSpec.

(* ------------------------------------------------------------------ *)
(** ** Analysis of the scoring patterns

    [mstr p m]: the string [m] is matched by the pattern [p] as a whole.
    [det_ok p]: every [\s+] of [p] is followed by a literal outside the
    class, so the greedy run is the only one that can succeed.
    [walk o i]: a match of [i] cannot start where the atoms [o] of another
    match begin and end inside it (checked atom by atom). *)

Module PatternAnalysis.
Import Regex.

Inductive mstr : list atom -> list ascii -> Prop :=
| m_nil : mstr [] []
| m_lit c p m : mstr p m -> mstr (Lit c :: p) (c :: m)
| m_cls (f : ascii -> bool) c p m : f c = true -> mstr p m -> mstr (Cls f :: p) (c :: m)
| m_plus (f : ascii -> bool) u p m :
    u <> [] -> Forall (fun c => f c = true) u -> mstr p m -> mstr (Plus f :: p) (u ++ m).

Fixpoint det_ok (p : list atom) : bool :=
  match p with
  | [] => true
  | Lit _ :: p' => det_ok p'
  | Cls _ :: p' => det_ok p'
  | Plus f :: p' =>
      match p' with
      | Lit c :: _ => negb (f c) && det_ok p'
      | _ => false
      end
  | Star _ :: _ => false
  end.

(** the matcher without backtracking, equal to [re_match] when [det_ok] *)
Fixpoint dmatch (p : list atom) (s : list ascii) : option (list ascii) :=
  match p with
  | [] => Some s
  | Lit c :: p' =>
      match s with
      | d :: s' => if Ascii.eqb c d then dmatch p' s' else None
      | [] => None
      end
  | Cls f :: p' =>
      match s with
      | d :: s' => if f d then dmatch p' s' else None
      | [] => None
      end
  | Plus f :: p' =>
      match run_len f s with
      | 0 => None
      | n => dmatch p' (skipn n s)
      end
  | Star f :: p' => dmatch p' (skipn (run_len f s) s)
  end.

Fixpoint walk (o i : list atom) : bool :=
  match o, i with
  | _, [] => false
  | [], _ :: _ => true
  | Lit a :: o', Lit b :: i' => if Ascii.eqb a b then walk o' i' else true
  | Lit a :: o', Cls g :: i' => if g a then walk o' i' else true
  | Cls f :: o', Lit b :: i' => if f b then walk o' i' else true
  | Plus f :: _, Lit b :: _ => negb (f b)
  | Lit a :: _, Plus g :: _ => negb (g a)
  | _, _ => false
  end.

(** [walk] from every atom of [o] and from its end *)
Fixpoint all_walk (o p : list atom) : bool :=
  walk o p && match o with [] => true | _ :: o' => all_walk o' p end.

(** no match of [p] lies inside a match of [p] after its first character *)
Definition inner_free (p : list atom) : bool :=
  match p with
  | Lit _ :: rest => all_walk rest p
  | _ => false
  end.

Definition pattern_ok (p : list atom) : bool := det_ok p && inner_free p.

(** [findall_count] on a character list *)
Definition cnt (p : list atom) (l : list ascii) : nat :=
  findall_count_fuel (S (List.length l)) p l.

End PatternAnalysis.

(** The rule-based score as the specification words it: +1 for each
    keyword found in the lower-cased text, +2 for each match of each
    pattern in it. *)
Module ScoreSpec.
Import DocClassifier.

Definition keyword_hits (sg : signature) (text : string) : nat :=
  List.length (filter (fun k => PyStr.contains (PyStr.lower k) (PyStr.lower text)) (keywords sg)).

Definition pattern_hits (sg : signature) (text : string) : nat :=
  list_sum (map (fun p => Regex.findall_count p (PyStr.lower text)) (patterns sg)).

End ScoreSpec.

(* ------------------------------------------------------------------ *)
(** ** [re.search] as a truth value

    Regular expressions with groups, alternation and repetition, matched by
    Brzozowski derivatives.  [re.search(p, s)] is truthy exactly when some
    substring of [s] is in the language of [p]; a backtracking engine finds
    a match whenever one exists for these constructs, whatever it returns. *)
Module ReSearch.

Inductive re :=
| RNul
| REps
| RChr (f : ascii -> bool)
| RCat (a b : re)
| RAlt (a b : re)
| RStar (a : re).

Fixpoint nullable (r : re) : bool :=
  match r with
  | RNul => false
  | REps => true
  | RChr _ => false
  | RCat a b => nullable a && nullable b
  | RAlt a b => nullable a || nullable b
  | RStar _ => true
  end.

Fixpoint deriv (c : ascii) (r : re) : re :=
  match r with
  | RNul => RNul
  | REps => RNul
  | RChr f => if f c then REps else RNul
  | RCat a b =>
      if nullable a then RAlt (RCat (deriv c a) b) (deriv c b) else RCat (deriv c a) b
  | RAlt a b => RAlt (deriv c a) (deriv c b)
  | RStar a => RCat (deriv c a) (RStar a)
  end.

(** some prefix of [l] is in the language of [r] *)
Fixpoint prefix_match (r : re) (l : list ascii) : bool :=
  nullable r ||
  match l with
  | [] => false
  | c :: l' => prefix_match (deriv c r) l'
  end.

(** some substring of [l] is in the language of [r] *)
Fixpoint search (r : re) (l : list ascii) : bool :=
  prefix_match r l ||
  match l with
  | [] => false
  | _ :: l' => search r l'
  end.

Definition re_search (r : re) (s : string) : bool := search r (list_ascii_of_string s).

(** a syntactic check that [r] matches nothing *)
Fixpoint is_empty (r : re) : bool :=
  match r with
  | RNul => true
  | RCat a b => is_empty a || is_empty b
  | RAlt a b => is_empty a && is_empty b
  | _ => false
  end.

Definition plus (r : re) : re := RCat r (RStar r).
Definition opt (r : re) : re := RAlt REps r.
Definition lit (w : string) : re :=
  fold_right (fun c r => RCat (RChr (Ascii.eqb c)) r) REps (list_ascii_of_string w).
Definition alts (rs : list re) : re := fold_right RAlt RNul rs.

(** [\d] on the ASCII range *)
Definition is_digit (c : ascii) : bool :=
  let n := nat_of_ascii c in (48 <=? n) && (n <=? 57).
Definition is_dollar (c : ascii) : bool := Ascii.eqb c "$"%char.
Definition is_slash_or_dash (c : ascii) : bool := Ascii.eqb c "/"%char || Ascii.eqb c "-"%char.

Definition digit : re := RChr is_digit.

End ReSearch.

(* ------------------------------------------------------------------ *)
(** ** The rest of [ClauseAnalyzer] *)

Module ClauseAnalyzerMore.
Import ClauseAnalyzer.
Local Open Scope string_scope.

(** A clause as the dict [batch_simplify] and [get_clause_summary] read,
    each key possibly missing. *)
Record clause_dict := {
  cd_number : option string;
  cd_title : option string;
  cd_content : option string;
  cd_type : option string;
  cd_word_count : option Z
}.

(** the dict of a clause produced by [extract_clauses] *)
Definition clause_to_dict (c : clause) : clause_dict :=
  {| cd_number := match locator c with Number n => Some n | Title _ => None end;
     cd_title := match locator c with Title t => Some t | Number _ => None end;
     cd_content := Some (content c);
     cd_type := Some (clause_type c);
     cd_word_count := Some (Z.of_nat (word_count c)) |}.

Definition get_or {A} (default : A) (v : option A) : A :=
  match v with Some x => x | None => default end.

(** [l[:n]] for any Python int [n] *)
Definition list_slice_to {A} (l : list A) (n : Z) : list A :=
  if (0 <=? n)%Z then firstn (Z.to_nat n) l
  else firstn (List.length l - Z.to_nat (- n)) l.

(** [simplify_clause]'s dict with the keys [number] and [type] added *)
Record batch_result := {
  br_result : simplification;
  br_number : string;
  br_type : string
}.

(** The loop of [batch_simplify] over [enumerate(clauses[:max_clauses])].
    [svc k] is the outcome of the [k]-th service call ([calls] made so far),
    [i] the index of [enumerate]. *)
Fixpoint batch_go (svc : nat -> outcome) (calls i : nat) (cs : list clause_dict)
  : list batch_result :=
  match cs with
  | [] => []
  | clause :: cs' =>
      let content := get_or "" (cd_content clause) in
      if Nat.ltb (String.length content) 50 then batch_go svc calls (S i) cs'
      else
        let result := simplify_clause content 500 (svc calls) in
        let number :=
          match cd_number clause with
          | Some n => n
          | None => get_or ("Clause " ++ PyStr.of_nat (i + 1)) (cd_title clause)
          end in
        {| br_result := result; br_number := number;
           br_type := get_or "General" (cd_type clause) |}
          :: batch_go svc (S calls) (S i) cs'
  end.

(** [batch_simplify(clauses, max_clauses)] *)
Definition batch_simplify (svc : nat -> outcome) (clauses : list clause_dict) (max_clauses : Z)
  : list batch_result :=
  batch_go svc 0 0 (list_slice_to clauses max_clauses).

Record clause_summary := {
  total_clauses : nat;
  total_words : Z;
  avg_words_per_clause : Q;
  summary_clause_types : list (string * nat)
}.

(** [clause_types[t] = clause_types.get(t, 0) + 1] over the clauses *)
Definition count_types (clauses : list clause_dict) : list (string * nat) :=
  fold_left (fun d clause =>
               let t := get_or "General" (cd_type clause) in
               NER.dict_set t (get_or 0 (NER.dict_get t d) + 1) d)
            clauses [].

(** [get_clause_summary(clauses)] *)
Definition get_clause_summary (clauses : list clause_dict) : clause_summary :=
  match clauses with
  | [] => {| total_clauses := 0; total_words := 0; avg_words_per_clause := 0;
             summary_clause_types := [] |}
  | _ =>
      let total := fold_left (fun s c => (s + get_or 0 (cd_word_count c))%Z) clauses 0%Z in
      {| total_clauses := List.length clauses;
         total_words := total;
         avg_words_per_clause :=
           Py.round2 (inject_Z total / inject_Z (Z.of_nat (List.length clauses)))%Q;
         summary_clause_types := count_types clauses |}
  end.

End ClauseAnalyzerMore.

(* ------------------------------------------------------------------ *)
(** ** The rest of [DocumentClassifier] *)

Module DocClassifierMore.
Import DocClassifier ReSearch.
Local Open Scope string_scope.

(** [r'\$|\d+(?:,\d{3})*(?:\.\d{2})?'] *)
Definition money_re : re :=
  RAlt (RChr is_dollar)
       (RCat (plus digit)
             (RCat (RStar (RCat (RChr (Ascii.eqb ","%char)) (RCat digit (RCat digit digit))))
                   (opt (RCat (RChr (Ascii.eqb "."%char)) (RCat digit digit))))).

Definition month_names : list string :=
  ["january"; "february"; "march"; "april"; "may"; "june"; "july"; "august";
   "september"; "october"; "november"; "december"].

(** [r'\d{1,2}[/-]\d{1,2}[/-]\d{2,4}|january|...|december'] *)
Definition date_re : re :=
  let d12 := RCat digit (opt digit) in
  let sep := RChr is_slash_or_dash in
  let d24 := RCat digit (RCat digit (opt (RCat digit (opt digit)))) in
  RAlt (RCat d12 (RCat sep (RCat d12 (RCat sep d24)))) (alts (map lit month_names)).

Record characteristics := {
  has_parties : bool;
  has_monetary_terms : bool;
  has_dates : bool;
  has_signatures : bool;
  has_legal_jargon : bool;
  estimated_formality : string
}.

Definition characteristic_legal_terms : list string :=
  ["whereas"; "hereby"; "hereinafter"; "notwithstanding"; "pursuant"].

(** [get_document_characteristics(text)] *)
Definition get_document_characteristics (text : string) : characteristics :=
  let text_lower := PyStr.lower text in
  let jargon_count :=
    List.length (filter (fun term => PyStr.contains term text_lower) characteristic_legal_terms) in
  {| has_parties :=
       existsb (fun term => PyStr.contains term text_lower)
               ["between"; "party"; "parties"; "hereinafter"];
     has_monetary_terms := re_search money_re text || PyStr.contains "payment" text_lower;
     has_dates := re_search date_re text_lower;
     has_signatures :=
       existsb (fun term => PyStr.contains term text_lower)
               ["signature"; "signed"; "executed"; "witness"];
     has_legal_jargon := Nat.leb 2 jargon_count;
     estimated_formality :=
       if Nat.leb 4 jargon_count then "High"
       else if Nat.leb jargon_count 1 then "Low"
       else "Medium" |}.

(** [similarity_map] of [suggest_similar_documents] *)
Definition similarity_map : list (string * list string) :=
  [("Non-Disclosure Agreement (NDA)", ["Service Agreement"; "Employment Contract"]);
   ("Employment Contract", ["Service Agreement"; "Non-Disclosure Agreement (NDA)"]);
   ("Lease Agreement", ["Purchase Agreement"; "Service Agreement"]);
   ("Service Agreement", ["Employment Contract"; "Non-Disclosure Agreement (NDA)"]);
   ("Purchase Agreement", ["Lease Agreement"; "Loan Agreement"]);
   ("Partnership Agreement", ["Service Agreement"; "License Agreement"]);
   ("License Agreement", ["Service Agreement"; "Partnership Agreement"]);
   ("Loan Agreement", ["Purchase Agreement"; "Settlement Agreement"]);
   ("Settlement Agreement", ["Loan Agreement"; "Service Agreement"]);
   ("Franchise Agreement", ["Partnership Agreement"; "License Agreement"])].

(** [suggest_similar_documents(doc_type)] *)
Definition suggest_similar_documents (doc_type : string) : list string :=
  ClauseAnalyzerMore.get_or [] (NER.dict_get doc_type similarity_map).

End DocClassifierMore.

(* ------------------------------------------------------------------ *)
(** ** [GraniteClient] *)

Module Granite.
Local Open Scope string_scope.

(** [s.split(sep)] for a non-empty [sep]: left to right, each occurrence
    found cuts the string and is skipped; [fuel] bounds the steps. *)
Fixpoint split_sep_fuel (fuel : nat) (sep s : string) : list string :=
  match fuel with
  | 0 => [s]
  | S fuel' =>
      if String.prefix sep s then
        "" :: split_sep_fuel fuel' sep
                (substring (String.length sep) (String.length s - String.length sep) s)
      else
        match s with
        | EmptyString => [""]
        | String c s' =>
            match split_sep_fuel fuel' sep s' with
            | w :: ws => String c w :: ws
            | [] => [String c ""]
            end
        end
  end.

Definition split_sep (sep s : string) : list string :=
  split_sep_fuel (S (String.length s)) sep s.

(** the end of [_generate_huggingface] on the decoded [response]:
    [response.split("Assistant:")[-1].strip()] when the marker occurs *)
Definition extract_assistant_reply (response : string) : string :=
  if PyStr.contains "Assistant:" response
  then PyStr.strip (last (split_sep "Assistant:" response) "")
  else response.

End Granite.

(** Sample inputs for the strategy regexes. *)
Module Samples.
Definition sample_numbered : string -> list (string * string) :=
  fun _ => [("1."%string,
             "Confidentiality. The Receiving Party shall keep all information secret."%string)].

Definition no_headers : string -> list (string * nat * nat) := fun _ => [].

End Samples.

(* ================================================================== *)
(** * Properties *)

(* ------------------------------------------------------------------ *)
(** ** Clause segmentation *)

Module SegmentationFacts.
Import ClauseAnalyzer.

Lemma in_firstn {A} n (l : list A) x : In x (firstn n l) -> In x l.
Proof.
  intros H. rewrite <- (firstn_skipn n l). apply in_or_app. now left.
Qed.

Lemma numbered_word_count nf text c :
  In c (extract_numbered_clauses nf text) ->
  word_count c = List.length (PyStr.split (content c)).
Proof.
  unfold extract_numbered_clauses. intros Hin.
  apply in_concat in Hin as [l [Hl Hc]].
  apply in_map_iff in Hl as [[g1 g2] [<- _]].
  destruct (Nat.ltb 20 _); [|contradiction].
  destruct Hc as [<-|[]]. reflexivity.
Qed.

Lemma sections_word_count text ms c :
  In c (sections_go text ms) ->
  word_count c = List.length (PyStr.split (content c)).
Proof.
  induction ms as [|[[g1 s0] st] rest IH]; simpl; [contradiction|].
  intros Hin. apply in_app_or in Hin as [Hin|Hin]; [|auto].
  destruct (Nat.ltb 50 _); [|contradiction].
  destruct Hin as [<-|[]]. reflexivity.
Qed.

Lemma paragraphs_word_count i ps c :
  In c (paragraphs_go i ps) ->
  word_count c = List.length (PyStr.split (content c)).
Proof.
  revert i. induction ps as [|p rest IH]; intros i; simpl; [contradiction|].
  intros Hin. apply in_app_or in Hin as [Hin|Hin]; [|eauto].
  destruct (Nat.ltb 100 _); [|contradiction].
  destruct Hin as [<-|[]]. reflexivity.
Qed.

Lemma paragraph_clauses_word_count text c :
  In c (extract_paragraph_clauses text) ->
  word_count c = List.length (PyStr.split (content c)).
Proof.
  unfold extract_paragraph_clauses. intros Hin.
  eapply paragraphs_word_count. apply (in_firstn 20). exact Hin.
Qed.

End SegmentationFacts.

Import ClauseAnalyzer Samples.

(** Claim C1: [extract_clauses] runs the strategies as an exclusive
    cascade.  When the numbered strategy yields a clause, only it was
    called and its result is returned; when it yields none but the section
    strategy yields one, only those two were called and the section result
    is returned; only when both yield none is the paragraph fallback called,
    and its result is returned.  The paragraph fallback never returns more
    than 20 clauses. *)
Theorem extract_clauses_cascade :
  forall (nf : string -> list (string * string))
         (hf : string -> list (string * nat * nat)) (text : string),
    let numbered := extract_numbered_clauses nf text in
    let sections := extract_section_clauses hf text in
    let paragraphs := extract_paragraph_clauses text in
    (numbered <> [] ->
       extract_clauses_traced nf hf text = ([Numbered], numbered)) /\
    (numbered = [] -> sections <> [] ->
       extract_clauses_traced nf hf text = ([Numbered; Sectioned], sections)) /\
    (numbered = [] -> sections = [] ->
       extract_clauses_traced nf hf text = ([Numbered; Sectioned; Paragraphs], paragraphs)) /\
    List.length paragraphs <= 20.
Proof.
  intros nf hf text numbered sections paragraphs.
  unfold extract_clauses_traced, call; simpl. fold numbered sections paragraphs.
  split; [|split; [|split]].
  - destruct numbered; [congruence|reflexivity].
  - intros ->. destruct sections; [congruence|reflexivity].
  - intros -> ->. reflexivity.
  - apply firstn_le_length.
Qed.

Lemma extract_clauses_cascade_witness :
  extract_clauses_traced sample_numbered no_headers "any text"%string =
  ([Numbered], extract_numbered_clauses sample_numbered "any text"%string).
Proof.
  apply (proj1 (extract_clauses_cascade sample_numbered no_headers "any text"%string)).
  vm_compute. discriminate.
Defined.

(** Claim C8: every clause returned by [extract_clauses], whichever
    strategy produced it, has [word_count] equal to the number of
    [str.split()] tokens of its [content]. *)
Theorem extract_clauses_word_count :
  forall nf hf text c,
    In c (extract_clauses nf hf text) ->
    word_count c = List.length (PyStr.split (content c)).
Proof.
  intros nf hf text c.
  unfold extract_clauses, extract_clauses_traced, call; simpl.
  destruct (extract_numbered_clauses nf text) as [|c0 l0] eqn:En.
  - destruct (extract_section_clauses hf text) as [|c1 l1] eqn:Es; cbn [snd].
    + apply SegmentationFacts.paragraph_clauses_word_count.
    + rewrite <- Es. apply SegmentationFacts.sections_word_count.
  - cbn [snd]. rewrite <- En. apply SegmentationFacts.numbered_word_count.
Qed.

Lemma extract_clauses_word_count_witness :
  In {| locator := Number "1.";
        content := "Confidentiality. The Receiving Party shall keep all information secret.";
        clause_type := "Confidentiality"; word_count := 9 |}
     (extract_clauses sample_numbered no_headers "any text"%string) /\
  9 = List.length (PyStr.split
         "Confidentiality. The Receiving Party shall keep all information secret.").
Proof.
  assert (H : In {| locator := Number "1.";
        content := "Confidentiality. The Receiving Party shall keep all information secret.";
        clause_type := "Confidentiality"; word_count := 9 |}
     (extract_clauses sample_numbered no_headers "any text"%string))
    by (vm_compute; left; reflexivity).
  split; [exact H|].
  exact (extract_clauses_word_count sample_numbered no_headers _ _ H).
Defined.

(** Claim C4: [_identify_clause_type] is total and ordered: it computes
    the specified rule (first catalog name, then the ordered fallback
    groups, then [General]) and never returns an empty label. *)
Theorem identify_clause_type_total_ordered :
  forall text,
    identify_clause_type text = ClauseTypeSpec.clause_type_by_spec text /\
    identify_clause_type text <> ""%string.
Proof.
  intros text.
  unfold identify_clause_type, ClauseTypeSpec.clause_type_by_spec.
  destruct (find _ clause_types) as [name|] eqn:E.
  - split; [reflexivity|].
    apply find_some in E as [Hin _].
    simpl in Hin.
    repeat (destruct Hin as [<-|Hin]; [discriminate|]). contradiction.
  - cbn [find fst snd ClauseTypeSpec.fallback_groups].
    repeat (destruct (any_in _ _); [split; [reflexivity|discriminate]|]).
    split; [reflexivity|discriminate].
Qed.

(** Claim C6: [simplify_clause] always returns a record, whatever the
    service does; when the service call raises, [simplified] holds the
    error message, [reduction_percentage] is 0 and the exception text is
    kept in the [error] field. *)
Theorem simplify_clause_failure_is_data :
  forall (clause_text : string) (max_length : Z),
    (forall resp, original (simplify_clause clause_text max_length resp) = clause_text) /\
    (forall e,
       let r := simplify_clause clause_text max_length (Raised e) in
       simplified r = ("Error simplifying clause: " ++ e)%string /\
       reduction_percentage r = 0%Q /\
       error r = Some e).
Proof.
  intros clause_text max_length. split.
  - intros [response|e]; simpl; [|reflexivity].
    destruct (Nat.eqb _ 0); reflexivity.
  - intros e. simpl. auto.
Qed.

(* ------------------------------------------------------------------ *)
(** ** Entity recognition *)

(** Claim C9: [extract_entities] returns a dict with exactly the six
    categories, in this order, each bound to a list within its cap. *)
Theorem extract_entities_categories_capped :
  forall bf rf orgf d1 d2 d3 m1 m2 m3 tf ef pf text,
  exists parties dates monetary_values obligations legal_terms contact_info,
    NER.extract_entities bf rf orgf d1 d2 d3 m1 m2 m3 tf ef pf text =
      [("parties"%string, parties); ("dates"%string, dates);
       ("monetary_values"%string, monetary_values); ("obligations"%string, obligations);
       ("legal_terms"%string, legal_terms); ("contact_info"%string, contact_info)] /\
    List.length parties <= 10 /\ List.length dates <= 20 /\
    List.length monetary_values <= 15 /\ List.length obligations <= 20 /\
    List.length legal_terms <= 15 /\ List.length contact_info <= 10.
Proof.
  intros.
  exists (NER.extract_parties bf rf orgf text), (NER.extract_dates d1 d2 d3 text),
         (NER.extract_monetary_values m1 m2 m3 text), (NER.extract_obligations text),
         (NER.extract_legal_terms tf text), (NER.extract_contact_info ef pf text).
  split; [reflexivity|].
  unfold NER.extract_parties, NER.extract_dates, NER.extract_monetary_values,
    NER.extract_obligations, NER.extract_legal_terms, NER.extract_contact_info.
  cbv zeta.
  repeat split; apply firstn_le_length.
Qed.

(* ------------------------------------------------------------------ *)
(** ** Clause simplification *)

Module SimplifyFacts.

Lemma substring0_length n s : String.length (substring 0 n s) <= n.
Proof.
  revert n. induction s as [|c s IH]; intros [|n]; simpl; try lia.
  specialize (IH n). lia.
Qed.

Lemma append_length (a b : string) :
  String.length (a ++ b) = String.length a + String.length b.
Proof. induction a as [|c a IH]; simpl; congruence. Qed.

End SimplifyFacts.

(** Claim C5 (as stated, for every [max_length]): with [max_length = -1]
    and the response ["hello"], Python's [s[:-1]] keeps four characters,
    so [simplified] is ["hell..."], of length 7, which exceeds [-1 + 3]. *)
Lemma simplify_clause_negative_max_length :
  ~ (Z.of_nat (String.length
       (simplified (simplify_clause "abc" (-1) (Returned "hello")))) <= -1 + 3)%Z.
Proof. intros H. vm_compute in H. apply H. reflexivity. Qed.

(** Claim C5, amended: for a non-empty clause text and [max_length >= 0],
    [simplified] is the trimmed response when it has at most [max_length]
    characters and otherwise its first [max_length] characters followed by
    ["..."]; in both cases its length is at most [max_length + 3]. *)
Theorem simplify_clause_truncation :
  forall (clause_text response : string) (max_length : Z),
    clause_text <> ""%string -> (0 <= max_length)%Z ->
    let s := PyStr.strip response in
    let r := simplify_clause clause_text max_length (Returned response) in
    simplified r =
      (if (Z.of_nat (String.length s) <=? max_length)%Z then s
       else (substring 0 (Z.to_nat max_length) s ++ "...")%string) /\
    (Z.of_nat (String.length (simplified r)) <= max_length + 3)%Z.
Proof.
  intros clause_text response max_length Hne Hn s r.
  subst r. unfold simplify_clause. fold s.
  destruct clause_text as [|c t]; [congruence|]. cbn [String.length Nat.eqb].
  unfold PyStr.slice_to.
  destruct (Z.leb_spec0 0 max_length) as [_|]; [|lia].
  rewrite Z.gtb_ltb.
  destruct (Z.ltb_spec0 max_length (Z.of_nat (String.length s))) as [Hlt|Hge];
  destruct (Z.leb_spec0 (Z.of_nat (String.length s)) max_length); try lia;
  cbn [simplified]; split; try reflexivity.
  - rewrite SimplifyFacts.append_length.
    pose proof (SimplifyFacts.substring0_length (Z.to_nat max_length) s).
    simpl String.length. lia.
  - lia.
Qed.

Lemma simplify_clause_truncation_witness :
  "abc"%string <> ""%string /\ (0 <= 3)%Z /\
  simplified (simplify_clause "abc" 3 (Returned "  hello  ")) = "hel..."%string.
Proof.
  split; [discriminate|split; [lia|]].
  destruct (simplify_clause_truncation "abc" "  hello  " 3) as [H _];
    [discriminate|lia|].
  rewrite H. vm_compute. reflexivity.
Defined.

(** Claim C10: with an empty clause text the service answers, but the
    division [len(simplified) / len(clause_text)] raises
    [ZeroDivisionError] inside the [try]; the record returned is the error
    record, whose [simplified_length] is 0 while [simplified] holds the
    42-character message [Error simplifying clause: division by zero]. *)
Theorem simplify_clause_empty_text_error_record :
  let r := simplify_clause "" 500 (Returned "ok") in
  simplified_length r = 0 /\
  simplified r = "Error simplifying clause: division by zero"%string /\
  String.length (simplified r) = 42 /\
  error r = Some "division by zero"%string.
Proof. vm_compute. repeat split. Qed.

(* ------------------------------------------------------------------ *)
(** ** Document classification *)

Module ClassifierFacts.
Import DocClassifier.

Lemma insert_desc_zero {A} (key : A -> nat) x acc :
  key x = 0 -> Py.insert_desc key x acc = app acc [x].
Proof.
  intros Hx. induction acc as [|y acc IH]; simpl; [reflexivity|].
  rewrite Hx. destruct (key y); simpl; congruence.
Qed.

Lemma sort_desc_all_zero {A} (key : A -> nat) l :
  (forall x, In x l -> key x = 0) -> Py.sort_desc key l = l.
Proof.
  unfold Py.sort_desc. intros H.
  enough (E : forall acc, fold_left (fun acc x => Py.insert_desc key x acc) l acc = app acc l)
    by apply E.
  induction l as [|x l IH]; intros acc; simpl.
  - symmetry. apply app_nil_r.
  - rewrite insert_desc_zero by (apply H; now left).
    rewrite IH by (intros y Hy; apply H; now right).
    rewrite <- app_assoc. reflexivity.
Qed.

Local Open Scope Q_scope.

Lemma round_half_even_bounds (q : Q) :
  0 <= q -> q <= 10000 -> (0 <= Py.round_half_even q <= 10000)%Z.
Proof.
  intros H0 H1. unfold Py.round_half_even.
  assert (Hf0 : (0 <= Qfloor q)%Z).
  { change 0%Z with (Qfloor 0). apply Qfloor_resp_le. exact H0. }
  pose proof (Qfloor_le q) as Hfq.
  assert (Hf1 : (Qfloor q <= 10000)%Z).
  { rewrite Zle_Qle. eapply Qle_trans; [exact Hfq|exact H1]. }
  assert (Hlt : 0 < q - inject_Z (Qfloor q) -> (Qfloor q < 10000)%Z).
  { intros Hpos. rewrite Zlt_Qlt. change (inject_Z 10000) with 10000. lra. }
  destruct (Qlt_le_dec (1 # 2) (q - inject_Z (Qfloor q))) as [Hd|Hd].
  - assert (0 < q - inject_Z (Qfloor q)) by lra. specialize (Hlt H). lia.
  - destruct (Qeq_dec (q - inject_Z (Qfloor q)) (1 # 2)) as [He|He].
    + assert (0 < q - inject_Z (Qfloor q)) by lra. specialize (Hlt H).
      destruct (Z.even (Qfloor q)); lia.
    + lia.
Qed.

Lemma round2_bounds (x : Q) : 0 <= x -> x <= 100 -> 0 <= Py.round2 x /\ Py.round2 x <= 100.
Proof.
  intros H0 H1. unfold Py.round2.
  destruct (round_half_even_bounds (x * 100)) as [Hr0 Hr1]; [lra|lra|].
  rewrite Zle_Qle in Hr0, Hr1. change (inject_Z 0) with 0 in Hr0.
  change (inject_Z 10000) with 10000 in Hr1.
  split.
  - apply Qle_shift_div_l; [reflexivity|]. lra.
  - apply Qle_shift_div_r; [reflexivity|]. lra.
Qed.

Lemma confidence_map_bounds c : 0 <= confidence_map c /\ confidence_map c <= 100.
Proof.
  unfold confidence_map.
  repeat match goal with |- context [String.eqb ?a ?b] => destruct (String.eqb a b) end;
  split; unfold Qle; simpl; lia.
Qed.

Lemma ai_confidence_bounds candidates resp :
  0 <= ai_confidence (ai_classification candidates resp) /\
  ai_confidence (ai_classification candidates resp) <= 100.
Proof.
  destruct resp as [response|e]; simpl.
  - destruct (fold_left parse_line _ _) as [[doc_type conf] reason]. simpl.
    apply confidence_map_bounds.
  - split; unfold Qle; simpl; lia.
Qed.

Lemma rule_confidence_bounds (n : nat) :
  0 <= Qmin (inject_Z (Z.of_nat n) / 10 * 100) 100 /\
  Qmin (inject_Z (Z.of_nat n) / 10 * 100) 100 <= 100.
Proof.
  split.
  - apply Q.min_glb; [|unfold Qle; simpl; lia].
    assert (0 <= inject_Z (Z.of_nat n)).
    { change 0 with (inject_Z 0). rewrite <- Zle_Qle. lia. }
    unfold Qdiv. apply Qmult_le_0_compat; [|unfold Qle; simpl; lia].
    apply Qmult_le_0_compat; [assumption|unfold Qle; simpl; lia].
  - apply Q.le_min_r.
Qed.

End ClassifierFacts.

Import DocClassifier.

(** Claim C2: whatever the text, the flag [use_ai] and the service's
    behaviour (any returned string, or an exception), the [confidence] of
    [classify_document] lies in [0, 100]. *)
Theorem classify_document_confidence_bounds :
  forall (text : string) (use_ai : bool) (resp : outcome),
    (0 <= confidence (classify_document text use_ai resp))%Q /\
    (confidence (classify_document text use_ai resp) <= 100)%Q.
Proof.
  intros text use_ai resp. unfold classify_document.
  destruct (hd (""%string, 0) _) as [top_type top_score].
  destruct (use_ai && Nat.ltb top_score 5); cbn [confidence].
  - apply ClassifierFacts.ai_confidence_bounds.
  - destruct (ClassifierFacts.rule_confidence_bounds top_score).
    apply ClassifierFacts.round2_bounds; assumption.
Qed.

(** Claim C3 (as stated): on ["hello"] every rule-based score is 0, yet
    [classify_document "hello" False] reports the first catalog entry, not
    [Unknown]. *)
Lemma classify_document_zero_scores_not_unknown :
  map snd (rule_based_classification "hello") = repeat 0 10 /\
  document_type (classify_document "hello" false (Raised "unused")) <> "Unknown"%string.
Proof. split; [vm_compute; reflexivity|vm_compute; discriminate]. Qed.

(** Claim C3, amended: when every rule-based score is 0, the rule-based
    path ([use_ai = False]) returns normally with method [Rule-based],
    confidence 0 and, since the stable sort keeps catalog order on ties,
    the first catalog entry ["Non-Disclosure Agreement (NDA)"] as its
    [document_type]. *)
Theorem classify_document_zero_scores_default :
  forall (text : string) (resp : outcome),
    (forall p, In p (rule_based_classification text) -> snd p = 0) ->
    let r := classify_document text false resp in
    document_type r = "Non-Disclosure Agreement (NDA)"%string /\
    method r = "Rule-based"%string /\
    (confidence r == 0)%Q.
Proof.
  intros text resp H r. subst r. unfold classify_document.
  rewrite (ClassifierFacts.sort_desc_all_zero snd _ H).
  unfold rule_based_classification, document_signatures in *.
  cbn [map firstn hd sig_name] in *.
  specialize (H _ (or_introl eq_refl)). cbn [snd] in H. rewrite H.
  cbn. split; [reflexivity|split; [reflexivity|]].
  vm_compute. reflexivity.
Qed.

Lemma classify_document_zero_scores_default_witness :
  (forall p, In p (rule_based_classification "hello") -> snd p = 0) /\
  document_type (classify_document "hello" false (Raised "unused")) =
    "Non-Disclosure Agreement (NDA)"%string.
Proof.
  assert (H : forall p, In p (rule_based_classification "hello") -> snd p = 0).
  { intros p Hp. vm_compute in Hp.
    repeat (destruct Hp as [<-|Hp]; [reflexivity|]). contradiction. }
  split; [exact H|].
  exact (proj1 (classify_document_zero_scores_default "hello" (Raised "unused") H)).
Defined.

Module RegexFacts.
Import Regex PatternAnalysis.

Lemma run_len_le f s : run_len f s <= List.length s.
Proof. induction s as [|c s IH]; simpl; [lia|]. destruct (f c); simpl; lia. Qed.

Lemma run_len_inside f s j :
  j < run_len f s -> exists d rest, skipn j s = d :: rest /\ f d = true.
Proof.
  revert j; induction s as [|c s IH]; intros j Hj; simpl in Hj; [lia|].
  destruct (f c) eqn:Hc; [|lia].
  destruct j as [|j]; simpl.
  - eauto.
  - apply IH; lia.
Qed.

Lemma run_len_firstn f s : Forall (fun c => f c = true) (firstn (run_len f s) s).
Proof.
  induction s as [|c s IH]; simpl; [constructor|].
  destruct (f c) eqn:Hc; simpl; constructor; auto.
Qed.

Lemma run_len_lt_app f t s :
  run_len f t < List.length t -> run_len f (t ++ s) = run_len f t.
Proof.
  induction t as [|c t IH]; simpl; intros H; [lia|].
  destruct (f c); [|reflexivity]. f_equal. apply IH. lia.
Qed.

Lemma run_len_app_lt f t s :
  run_len f (t ++ s) < List.length t -> run_len f t = run_len f (t ++ s).
Proof.
  induction t as [|c t IH]; simpl; intros H; [lia|].
  destruct (f c); [|reflexivity]. f_equal. apply IH. lia.
Qed.

Lemma try_runs_none m s k :
  (forall j, 1 <= j <= k -> m (skipn j s) = None) -> try_runs m s k = None.
Proof.
  induction k as [|k IH]; intros H; [reflexivity|].
  cbn [try_runs]. rewrite (H (S k)) by lia. apply IH. intros j Hj. apply H. lia.
Qed.

Lemma try_runs_top m s n :
  (forall j, 1 <= j < n -> m (skipn j s) = None) ->
  try_runs m s n = match n with 0 => None | S _ => m (skipn n s) end.
Proof.
  destruct n as [|n]; intros H; [reflexivity|].
  cbn [try_runs]. destruct (m (skipn (S n) s)); [reflexivity|].
  apply try_runs_none. intros j Hj. apply H. lia.
Qed.

Lemma re_match_dmatch p s : det_ok p = true -> re_match p s = dmatch p s.
Proof.
  revert s; induction p as [|a p IH]; intros s Hd; [reflexivity|].
  destruct a as [c|f|f|f]; simpl in Hd |- *.
  - destruct s; [reflexivity|]. destruct (Ascii.eqb c a); auto.
  - destruct s; [reflexivity|]. destruct (f a); auto.
  - destruct p as [|[c|g|g|g] p']; try discriminate.
    apply andb_true_iff in Hd as [Hfc Hd]. apply negb_true_iff in Hfc.
    rewrite try_runs_top.
    + destruct (run_len f s); [reflexivity|]. apply IH; exact Hd.
    + intros j Hj. destruct (run_len_inside f s j ltac:(lia)) as [d [rest [Hs Hfd]]].
      rewrite Hs. simpl. destruct (Ascii.eqb c d) eqn:E; [|reflexivity].
      apply Ascii.eqb_eq in E. subst. congruence.
  - discriminate.
Qed.

Lemma mstr_nonempty a p m : mstr (a :: p) m -> m <> [].
Proof.
  intros H; inversion H; subst; try discriminate.
  destruct u; [congruence|discriminate].
Qed.

Lemma mstr_nil_inv m : mstr [] m -> m = [].
Proof. intros H; inversion H; reflexivity. Qed.

Lemma dmatch_sound p s r :
  det_ok p = true -> dmatch p s = Some r -> exists m, s = m ++ r /\ mstr p m.
Proof.
  revert s; induction p as [|a p IH]; intros s Hd H; simpl in H.
  - injection H as <-. exists []. split; [reflexivity|constructor].
  - destruct a as [c|f|f|f]; simpl in Hd.
    + destruct s as [|d s]; [discriminate|].
      destruct (Ascii.eqb c d) eqn:E; [|discriminate]. apply Ascii.eqb_eq in E; subst.
      destruct (IH s Hd H) as [m [-> Hm]]. exists (d :: m). split; [reflexivity|].
      constructor; exact Hm.
    + destruct s as [|d s]; [discriminate|].
      destruct (f d) eqn:E; [|discriminate].
      destruct (IH s Hd H) as [m [-> Hm]]. exists (d :: m). split; [reflexivity|].
      constructor; assumption.
    + assert (Hd' : det_ok p = true).
      { destruct p as [|[c|g|g|g] p']; try discriminate.
        apply andb_true_iff in Hd as [_ Hd]; exact Hd. }
      destruct (run_len f s) as [|n] eqn:Hn; [discriminate|].
      destruct (IH _ Hd' H) as [m [Hs Hm]].
      exists (firstn (S n) s ++ m). split.
      * rewrite <- app_assoc, <- Hs. symmetry. apply firstn_skipn.
      * constructor; [| rewrite <- Hn; apply run_len_firstn | exact Hm].
        pose proof (run_len_le f s). destruct s; simpl in *; [lia|discriminate].
    + discriminate.
Qed.

Lemma dmatch_shorter p s r :
  det_ok p = true -> p <> [] -> dmatch p s = Some r -> List.length r < List.length s.
Proof.
  intros Hd Hp H. destruct (dmatch_sound p s r Hd H) as [m [-> Hm]].
  destruct p as [|a p]; [congruence|].
  apply mstr_nonempty in Hm. destruct m; [congruence|]. simpl. rewrite length_app. lia.
Qed.

Lemma det_ok_plus_tail f p :
  det_ok (Plus f :: p) = true ->
  exists c p', p = Lit c :: p' /\ f c = false /\ det_ok p = true.
Proof.
  simpl. destruct p as [|[c|g|g|g] p']; try discriminate.
  intros H. apply andb_true_iff in H as [H1 H2]. apply negb_true_iff in H1. eauto.
Qed.

(** a match of a prefix survives appending *)
Lemma dmatch_app p t r s :
  det_ok p = true -> dmatch p t = Some r -> dmatch p (t ++ s) = Some (r ++ s).
Proof.
  revert t; induction p as [|a p IH]; intros t Hd H; cbn [dmatch] in H |- *.
  - congruence.
  - destruct a as [c|f|f|f]; simpl in Hd.
    + destruct t as [|d t]; [discriminate|]. simpl.
      destruct (Ascii.eqb c d); [apply IH; assumption|discriminate].
    + destruct t as [|d t]; [discriminate|]. simpl.
      destruct (f d); [apply IH; assumption|discriminate].
    + destruct (det_ok_plus_tail f p Hd) as [c [p' [-> [Hfc Hd']]]].
      destruct (run_len f t) as [|n] eqn:Hn; [discriminate|].
      assert (Hlt : S n < List.length t).
      { destruct (Nat.lt_ge_cases (S n) (List.length t)) as [?|Hge]; [assumption|].
        rewrite skipn_all2 in H by exact Hge. discriminate. }
      rewrite run_len_lt_app by lia. rewrite Hn.
      rewrite skipn_app. replace (S n - List.length t) with 0 by lia. simpl.
      apply IH; assumption.
    + discriminate.
Qed.

(** a match in [t ++ s] that ends inside [t] is a match in [t] *)
Lemma dmatch_app_inv p t s r :
  det_ok p = true -> dmatch p (t ++ s) = Some r -> List.length s <= List.length r ->
  exists r0, r = r0 ++ s /\ dmatch p t = Some r0.
Proof.
  revert t r; induction p as [|a p IH]; intros t r Hd H Hl.
  - cbn [dmatch] in H. injection H as <-. exists t. split; reflexivity.
  - assert (Hne : a :: p <> []) by discriminate.
    destruct a as [c|f|f|f].
    + destruct t as [|d t].
      * pose proof (dmatch_shorter _ _ _ Hd Hne H). simpl in *. lia.
      * simpl in Hd, H |- *. destruct (Ascii.eqb c d); [|discriminate]. apply IH; assumption.
    + destruct t as [|d t].
      * pose proof (dmatch_shorter _ _ _ Hd Hne H). simpl in *. lia.
      * simpl in Hd, H |- *. destruct (f d); [|discriminate]. apply IH; assumption.
    + destruct (det_ok_plus_tail f p Hd) as [c [p' [-> [Hfc Hd']]]].
      cbn [dmatch] in H |- *.
      destruct (run_len f (t ++ s)) as [|n] eqn:Hn; [discriminate|].
      destruct (Nat.lt_ge_cases (S n) (List.length t)) as [Hlt|Hge].
      * rewrite skipn_app in H. replace (S n - List.length t) with 0 in H by lia.
        simpl in H. destruct (IH _ _ Hd' H Hl) as [r0 [Hr Hr0]].
        exists r0. split; [exact Hr|].
        rewrite (run_len_app_lt f t s) by lia. rewrite Hn. exact Hr0.
      * rewrite skipn_app, skipn_all2 in H by exact Hge. simpl in H.
        pose proof (dmatch_shorter _ _ _ Hd' ltac:(discriminate) H) as Hs.
        rewrite length_skipn in Hs. lia.
    + discriminate.
Qed.

Lemma mstr_lit_inv c p m : mstr (Lit c :: p) m -> exists m', m = c :: m' /\ mstr p m'.
Proof. intros H; inversion H; subst; eauto. Qed.

Lemma mstr_cls_inv f p m :
  mstr (Cls f :: p) m -> exists d m', m = d :: m' /\ f d = true /\ mstr p m'.
Proof. intros H; inversion H; subst; eauto. Qed.

Lemma mstr_plus_inv f p m :
  mstr (Plus f :: p) m ->
  exists d u m', m = (d :: u) ++ m' /\ f d = true /\ Forall (fun c => f c = true) u /\ mstr p m'.
Proof.
  intros H; inversion H as [| | |f' u p' m' Hu Hf Hm]; subst.
  destruct u as [|d u]; [congruence|]. inversion Hf; subst. eauto 8.
Qed.

Lemma walk_sound o i m1 m2 z :
  walk o i = true -> mstr o m1 -> mstr i m2 -> m1 = m2 ++ z -> False.
Proof.
  revert i m1 m2 z; induction o as [|a o IH]; intros i m1 m2 z Hw Ho Hi He.
  - destruct i as [|b i]; [discriminate|].
    apply mstr_nil_inv in Ho; subst.
    destruct m2; [exact (mstr_nonempty _ _ _ Hi eq_refl) | discriminate].
  - destruct i as [|b i]; [destruct a; discriminate|].
    destruct a as [c|f|f|f]; destruct b as [d|g|g|g]; simpl in Hw; try discriminate.
    + apply mstr_lit_inv in Ho as [m1' [-> Ho]]. apply mstr_lit_inv in Hi as [m2' [-> Hi]].
      simpl in He. injection He as <- He.
      rewrite Ascii.eqb_refl in Hw. eapply IH; eassumption.
    + apply mstr_lit_inv in Ho as [m1' [-> Ho]].
      apply mstr_cls_inv in Hi as [e [m2' [-> [He' Hi]]]].
      simpl in He. injection He as <- He. rewrite He' in Hw. eapply IH; eassumption.
    + apply mstr_lit_inv in Ho as [m1' [-> Ho]].
      apply mstr_plus_inv in Hi as [e [u [m2' [-> [He' _]]]]].
      simpl in He. injection He as <- _. rewrite He' in Hw. discriminate.
    + apply mstr_cls_inv in Ho as [e [m1' [-> [He' Ho]]]].
      apply mstr_lit_inv in Hi as [m2' [-> Hi]].
      simpl in He. injection He as <- He. rewrite He' in Hw. eapply IH; eassumption.
    + apply mstr_plus_inv in Ho as [e [u [m1' [-> [He' _]]]]].
      apply mstr_lit_inv in Hi as [m2' [-> Hi]].
      simpl in He. injection He as -> _. rewrite He' in Hw. discriminate.
Qed.

Lemma Forall_skipn' {A} (P : A -> Prop) k l : Forall P l -> Forall P (skipn k l).
Proof.
  revert l; induction k as [|k IH]; intros l H; [exact H|].
  destruct l; simpl; [constructor|]. inversion H; subst. apply IH; assumption.
Qed.

Lemma inner_free_sound o p m1 m2 z k :
  mstr o m1 -> all_walk o p = true -> mstr p m2 -> skipn k m1 = m2 ++ z -> False.
Proof.
  intros Ho; revert k; induction Ho as [|c o m Ho IH|f c o m Hc Ho IH|f u o m Hu Hf Ho IH];
    intros k Hw Hp Hk; cbn [all_walk] in Hw; apply andb_true_iff in Hw as [Hw Hw'].
  - rewrite skipn_nil in Hk. destruct p; [discriminate|].
    destruct m2; [exact (mstr_nonempty _ _ _ Hp eq_refl)|discriminate].
  - destruct k as [|k].
    + eapply walk_sound; [exact Hw| constructor; exact Ho | exact Hp | exact Hk].
    + eapply IH; eassumption.
  - destruct k as [|k].
    + eapply walk_sound; [exact Hw| constructor; eassumption | exact Hp | exact Hk].
    + eapply IH; eassumption.
  - destruct (Nat.lt_ge_cases k (List.length u)) as [Hlt|Hge].
    + rewrite skipn_app in Hk. replace (k - List.length u) with 0 in Hk by lia. simpl in Hk.
      eapply walk_sound; [exact Hw| | exact Hp | exact Hk].
      constructor; [| apply Forall_skipn'; exact Hf | exact Ho].
      intros E. apply (f_equal (@List.length ascii)) in E. rewrite length_skipn in E.
      simpl in E. lia.
    + rewrite skipn_app, skipn_all2 in Hk by exact Hge. simpl in Hk.
      eapply IH; eassumption.
Qed.

(** counting matches with any sufficient fuel *)
Lemma count_fuel_stable p :
  det_ok p = true -> p <> [] ->
  forall f1 f2 s, List.length s < f1 -> List.length s < f2 ->
  findall_count_fuel f1 p s = findall_count_fuel f2 p s.
Proof.
  intros Hd Hp f1; induction f1 as [|f1 IH]; intros f2 s H1 H2; [lia|].
  destruct f2 as [|f2]; [lia|]. simpl. rewrite re_match_dmatch by exact Hd.
  destruct (dmatch p s) as [r|] eqn:E.
  - f_equal. pose proof (dmatch_shorter p s r Hd Hp E). apply IH; lia.
  - destruct s as [|c s]; [reflexivity|]. simpl in *. apply IH; lia.
Qed.

Lemma count_fuel_succ n p s :
  findall_count_fuel (S n) p s =
  match re_match p s with
  | Some r => S (findall_count_fuel n p r)
  | None => match s with [] => 0 | _ :: s' => findall_count_fuel n p s' end
  end.
Proof. reflexivity. Qed.

Lemma cnt_cons p c l :
  det_ok p = true -> p <> [] ->
  cnt p (c :: l) = match dmatch p (c :: l) with Some r => S (cnt p r) | None => cnt p l end.
Proof.
  intros Hd Hp. unfold cnt at 1. rewrite count_fuel_succ, re_match_dmatch by exact Hd.
  destruct (dmatch p (c :: l)) as [r|] eqn:E.
  - f_equal. pose proof (dmatch_shorter _ _ _ Hd Hp E).
    unfold cnt. apply count_fuel_stable; auto; simpl in *; lia.
  - unfold cnt. apply count_fuel_stable; auto; simpl; lia.
Qed.

Lemma cnt_none p l :
  (forall k, dmatch p (skipn k l) = None) -> det_ok p = true -> p <> [] -> cnt p l = 0.
Proof.
  induction l as [|c l IH]; intros H Hd Hp.
  - unfold cnt. rewrite count_fuel_succ, re_match_dmatch by exact Hd.
    specialize (H 0). simpl in H. rewrite H. reflexivity.
  - rewrite cnt_cons by assumption. rewrite (H 0 : dmatch p (c :: l) = None). apply IH; auto.
    intros k. exact (H (S k)).
Qed.

Lemma cnt_app_mono p :
  pattern_ok p = true -> forall t s, cnt p t <= cnt p (t ++ s).
Proof.
  unfold pattern_ok. intros Hok. apply andb_true_iff in Hok as [Hd Hi].
  assert (Hp : p <> []) by (destruct p; discriminate).
  intros t. induction t as [t IHt] using (induction_ltof1 _ (@List.length ascii)).
  unfold ltof in IHt. intros s.
  destruct t as [|c t'].
  - unfold cnt at 1. simpl. rewrite re_match_dmatch by exact Hd.
    destruct (dmatch p []) eqn:E; [|lia].
    pose proof (dmatch_shorter _ _ _ Hd Hp E). simpl in *. lia.
  - rewrite <- app_comm_cons.
    rewrite (cnt_cons p c t') by assumption.
    rewrite (cnt_cons p c (t' ++ s)) by assumption.
    rewrite app_comm_cons.
    destruct (dmatch p (c :: t')) as [r|] eqn:E.
    + rewrite (dmatch_app _ _ _ s Hd E).
      pose proof (dmatch_shorter _ _ _ Hd Hp E).
      specialize (IHt r H s). lia.
    + destruct (dmatch p ((c :: t') ++ s)) as [r'|] eqn:E'.
      * destruct (Nat.le_gt_cases (List.length s) (List.length r')) as [Hl|Hl].
        { destruct (dmatch_app_inv _ _ _ _ Hd E' Hl) as [r0 [_ Hr0]]. congruence. }
        destruct (dmatch_sound _ _ _ Hd E') as [m1 [Heq Hm1]].
        assert (Hlen : List.length (c :: t') < List.length m1).
        { apply (f_equal (@List.length ascii)) in Heq. rewrite !length_app in Heq. lia. }
        destruct (app_eq_app _ _ _ _ Heq) as [y [[Ht Hs]|[Hm Hr]]].
        { rewrite Ht, length_app in Hlen. lia. }
        assert (Hz : cnt p t' = 0).
        { apply cnt_none; auto. intros k.
          destruct (dmatch p (skipn k t')) as [r2|] eqn:E2; [|reflexivity].
          exfalso. destruct (dmatch_sound _ _ _ Hd E2) as [m2 [Hk Hm2]].
          destruct p as [|[c0|g|g|g] rest]; try discriminate.
          simpl in Hi. subst m1. inversion Hm1; subst.
          destruct (Nat.le_gt_cases k (List.length t')) as [Hk'|Hk'].
          - apply (inner_free_sound rest (Lit c :: rest) (t' ++ y) m2 (r2 ++ y) k); auto.
            rewrite skipn_app. replace (k - List.length t') with 0 by lia.
            simpl. rewrite Hk, app_assoc. reflexivity.
          - rewrite skipn_all2 in Hk by lia.
            destruct m2; [exact (mstr_nonempty _ _ _ Hm2 eq_refl)|discriminate]. }
        rewrite Hz. lia.
      * apply IHt; simpl; lia.
Qed.

End RegexFacts.

Module ScoreFacts.
Import DocClassifier RegexFacts.

Lemma fold_keywords (P : string -> bool) l a :
  fold_left (fun s k => if P k then s + 1 else s) l a = a + List.length (filter P l).
Proof.
  revert a; induction l as [|k l IH]; intros a; simpl; [lia|].
  rewrite IH. destruct (P k); simpl; lia.
Qed.

Lemma fold_patterns (f : list Regex.atom -> nat) l a :
  fold_left (fun s p => s + f p * 2) l a = a + 2 * list_sum (map f l).
Proof.
  revert a; induction l as [|p l IH]; intros a; simpl; [lia|].
  rewrite IH. lia.
Qed.

Lemma lower_app a b : PyStr.lower (a ++ b) = (PyStr.lower a ++ PyStr.lower b)%string.
Proof. induction a as [|c a IH]; simpl; [reflexivity|]. rewrite IH. reflexivity. Qed.

Lemma prefix_app k a b : String.prefix k a = true -> String.prefix k (a ++ b) = true.
Proof.
  revert a; induction k as [|c k IH]; intros a H; [destruct (a ++ b)%string; reflexivity|].
  destruct a as [|d a]; [discriminate|]. simpl in H |- *.
  destruct (ascii_dec c d); [apply IH; exact H|discriminate].
Qed.

Lemma contains_app k a b : PyStr.contains k a = true -> PyStr.contains k (a ++ b) = true.
Proof.
  induction a as [|c a IH]; intros H.
  - destruct k as [|c k]; [destruct b; reflexivity|]. simpl in H. discriminate.
  - simpl in H |- *. apply orb_true_iff in H as [H|H]; apply orb_true_iff.
    + left. apply (prefix_app k (String c a) b). exact H.
    + right. apply IH. exact H.
Qed.

Lemma filter_length_mono {A} (P Q : A -> bool) l :
  (forall x, P x = true -> Q x = true) ->
  List.length (filter P l) <= List.length (filter Q l).
Proof.
  intros H; induction l as [|x l IH]; simpl; [lia|].
  destruct (P x) eqn:Ex; [rewrite (H x Ex); simpl; lia|].
  destruct (Q x); simpl; lia.
Qed.

Lemma list_sum_map_mono {A} (f g : A -> nat) l :
  Forall (fun x => f x <= g x) l -> list_sum (map f l) <= list_sum (map g l).
Proof. induction 1; simpl; lia. Qed.

Lemma list_ascii_of_string_app a b :
  list_ascii_of_string (a ++ b) = list_ascii_of_string a ++ list_ascii_of_string b.
Proof. induction a as [|c a IH]; simpl; [reflexivity|]. rewrite IH. reflexivity. Qed.

Lemma findall_count_app_mono p a b :
  PatternAnalysis.pattern_ok p = true ->
  Regex.findall_count p a <= Regex.findall_count p (a ++ b).
Proof.
  intros Hok. unfold Regex.findall_count. rewrite list_ascii_of_string_app.
  apply (cnt_app_mono p Hok).
Qed.

Lemma catalog_patterns_ok :
  Forall (fun sg => Forall (fun p => PatternAnalysis.pattern_ok p = true) (patterns sg))
         document_signatures.
Proof.
  assert (H : forallb (fun sg => forallb PatternAnalysis.pattern_ok (patterns sg))
                      document_signatures = true) by (vm_compute; reflexivity).
  apply Forall_forall. intros sg Hsg. apply Forall_forall. intros p Hp.
  rewrite forallb_forall in H. specialize (H sg Hsg).
  rewrite forallb_forall in H. exact (H p Hp).
Qed.

Lemma signature_score_spec sg text :
  signature_score sg (PyStr.lower text) =
  ScoreSpec.keyword_hits sg text + 2 * ScoreSpec.pattern_hits sg text.
Proof.
  unfold signature_score, ScoreSpec.keyword_hits, ScoreSpec.pattern_hits.
  rewrite fold_patterns, fold_keywords. reflexivity.
Qed.

End ScoreFacts.

(** Claim C7: the rule-based score of every catalog entry is +1 per keyword
    found (case-insensitively) in the text plus +2 per match of each of its
    patterns in the lower-cased text, every match counted; and appending
    any text, in particular another occurrence of a pattern, never lowers
    any entry's score. *)
Theorem rule_based_scores_additive_monotone :
  forall text w,
    rule_based_classification text =
      map (fun sg => (sig_name sg,
                      ScoreSpec.keyword_hits sg text + 2 * ScoreSpec.pattern_hits sg text))
          document_signatures /\
    Forall2 (fun a b => fst a = fst b /\ snd a <= snd b)
            (rule_based_classification text) (rule_based_classification (text ++ w)).
Proof.
  intros text w. split.
  - unfold rule_based_classification. apply map_ext. intros sg.
    rewrite ScoreFacts.signature_score_spec. reflexivity.
  - unfold rule_based_classification.
    pose proof ScoreFacts.catalog_patterns_ok as Hok.
    induction Hok as [|sg sgs Hsg Hok IH]; simpl; constructor; [|exact IH].
    simpl. split; [reflexivity|].
    rewrite !ScoreFacts.signature_score_spec.
    unfold ScoreSpec.keyword_hits, ScoreSpec.pattern_hits.
    rewrite ScoreFacts.lower_app.
    apply Nat.add_le_mono.
    + apply ScoreFacts.filter_length_mono. intros k Hk. apply ScoreFacts.contains_app. exact Hk.
    + apply Nat.mul_le_mono_l. apply ScoreFacts.list_sum_map_mono.
      apply Forall_forall. intros p Hp.
      apply ScoreFacts.findall_count_app_mono.
      rewrite Forall_forall in Hsg. exact (Hsg p Hp).
Qed.

(* ------------------------------------------------------------------ *)
(** ** Further properties of the modelled functions *)

Module SortFacts.

Lemma in_firstn' {A} n (l : list A) x : In x (firstn n l) -> In x l.
Proof. intros H. rewrite <- (firstn_skipn n l). apply in_or_app. left; exact H. Qed.

Lemma insert_desc_perm {A} (key : A -> nat) x l : Permutation (Py.insert_desc key x l) (x :: l).
Proof.
  induction l as [|y l IH]; simpl; [reflexivity|].
  destruct (key y <? key x); [reflexivity|].
  rewrite IH. apply perm_swap.
Qed.

Lemma insert_desc_sorted {A} (key : A -> nat) x l :
  Sorted (fun a b => key b <= key a) l ->
  Sorted (fun a b => key b <= key a) (Py.insert_desc key x l).
Proof.
  induction l as [|y l IH]; intros H; simpl.
  - repeat constructor.
  - destruct (key y <? key x) eqn:E.
    + apply Nat.ltb_lt in E. constructor; [exact H|]. constructor. lia.
    + apply Nat.ltb_ge in E. inversion H as [|? ? Hs Hh]; subst.
      constructor; [apply IH; exact Hs|].
      destruct l as [|z l]; simpl.
      * constructor. exact E.
      * destruct (key z <? key x); constructor; [exact E|]. inversion Hh; assumption.
Qed.

Lemma sort_desc_go_perm {A} (key : A -> nat) l acc :
  Permutation (fold_left (fun acc x => Py.insert_desc key x acc) l acc) (l ++ acc).
Proof.
  revert acc; induction l as [|x l IH]; intros acc; simpl; [reflexivity|].
  rewrite IH, insert_desc_perm. symmetry. apply Permutation_middle.
Qed.

Lemma sort_desc_perm {A} (key : A -> nat) l : Permutation (Py.sort_desc key l) l.
Proof. unfold Py.sort_desc. rewrite sort_desc_go_perm, app_nil_r. reflexivity. Qed.

Lemma sort_desc_sorted {A} (key : A -> nat) l :
  Sorted (fun a b => key b <= key a) (Py.sort_desc key l).
Proof.
  unfold Py.sort_desc.
  assert (H : forall acc, Sorted (fun a b => key b <= key a) acc ->
            Sorted (fun a b => key b <= key a)
                   (fold_left (fun acc x => Py.insert_desc key x acc) l acc)).
  { induction l as [|x l IH]; intros acc Hacc; simpl; [exact Hacc|].
    apply IH, insert_desc_sorted, Hacc. }
  apply H. constructor.
Qed.

Lemma strongly_sorted_app {A} (R : A -> A -> Prop) l1 l2 :
  StronglySorted R (l1 ++ l2) ->
  StronglySorted R l1 /\ StronglySorted R l2 /\ Forall (fun y => Forall (fun x => R x y) l1) l2.
Proof.
  induction l1 as [|x l1 IH]; simpl; intros H.
  - split; [constructor|]. split; [exact H|]. apply Forall_forall. intros; constructor.
  - inversion H as [|? ? Hs Hf]; subst. destruct (IH Hs) as [H1 [H2 H3]].
    split; [constructor; [exact H1|] |split; [exact H2|]].
    + rewrite Forall_forall in Hf |- *. intros y Hy. apply Hf, in_or_app. left; exact Hy.
    + rewrite Forall_forall in H3 |- *. intros y Hy. constructor; [|apply H3, Hy].
      rewrite Forall_forall in Hf. apply Hf, in_or_app. right; exact Hy.
Qed.

Lemma sorted_firstn_skipn {A} (key : A -> nat) n l :
  Sorted (fun a b => key b <= key a) l ->
  Sorted (fun a b => key b <= key a) (firstn n l) /\
  Forall (fun y => Forall (fun x => key y <= key x) (firstn n l)) (skipn n l).
Proof.
  intros H. apply Sorted_StronglySorted in H; [| intros a b c; lia].
  rewrite <- (firstn_skipn n l) in H.
  destruct (strongly_sorted_app _ _ _ H) as [H1 [_ H3]].
  split; [apply StronglySorted_Sorted; exact H1 | exact H3].
Qed.

End SortFacts.

Module ClassifierMoreFacts.
Import DocClassifier DocClassifierMore ReSearch.
Local Open Scope string_scope.

Lemma rule_based_names text : map fst (rule_based_classification text) = signature_names.
Proof. unfold rule_based_classification, signature_names. rewrite map_map. reflexivity. Qed.

Lemma rule_based_length text : List.length (rule_based_classification text) = 10.
Proof. unfold rule_based_classification. rewrite length_map. reflexivity. Qed.

Lemma top3_props text :
  let top := firstn 3 (Py.sort_desc snd (rule_based_classification text)) in
  List.length top = 3 /\
  Sorted (fun a b => snd b <= snd a) top /\
  exists rest, Permutation (top ++ rest) (rule_based_classification text) /\
    Forall (fun y => Forall (fun x => snd y <= snd x) top) rest.
Proof.
  intros top.
  pose proof (SortFacts.sort_desc_perm snd (rule_based_classification text)) as Hp.
  destruct (SortFacts.sorted_firstn_skipn snd 3 _
              (SortFacts.sort_desc_sorted snd (rule_based_classification text))) as [Hs Hf].
  split; [|split; [exact Hs|]].
  - unfold top. rewrite length_firstn, (Permutation_length Hp), rule_based_length. reflexivity.
  - exists (skipn 3 (Py.sort_desc snd (rule_based_classification text))).
    split; [|exact Hf]. unfold top. rewrite firstn_skipn. exact Hp.
Qed.

Lemma top3_in_names text x :
  In x (firstn 3 (Py.sort_desc snd (rule_based_classification text))) ->
  In (fst x) signature_names.
Proof.
  intros H. apply SortFacts.in_firstn' in H.
  apply (Permutation_in _ (SortFacts.sort_desc_perm snd _)) in H.
  rewrite <- (rule_based_names text). apply in_map, H.
Qed.

Lemma existsb_eqb_in d l : existsb (String.eqb d) l = true -> In d l.
Proof.
  intros H. apply existsb_exists in H as [x [Hx E]]. apply String.eqb_eq in E. subst. exact Hx.
Qed.

Lemma ai_type_in_names candidates resp :
  candidates <> [] -> Forall (fun c => In c signature_names) candidates ->
  In (ai_type (ai_classification candidates resp)) signature_names.
Proof.
  intros Hne Hc.
  assert (Hfirst : In (first_or_unknown candidates) signature_names).
  { destruct candidates as [|c cs]; [congruence|]. inversion Hc; assumption. }
  destruct resp as [response|e]; [|exact Hfirst].
  cbn [ai_classification].
  destruct (fold_left parse_line _ _) as [[doc_type conf] rs]. cbn [ai_type].
  destruct doc_type as [d|].
  - destruct (String.eqb d "" || negb (existsb (String.eqb d) signature_names)) eqn:Hinv.
    + match goal with |- context [find ?f signature_names] =>
        destruct (find f signature_names) as [known|] eqn:Hf end; [|exact Hfirst].
      apply find_some in Hf as [Hk _]. exact Hk.
    + apply orb_false_iff in Hinv as [_ Hin]. apply negb_false_iff in Hin.
      apply existsb_eqb_in, Hin.
  - match goal with |- context [find ?f signature_names] =>
      destruct (find f signature_names) as [known|] eqn:Hf end; [|exact Hfirst].
    apply find_some in Hf as [Hk _]. exact Hk.
Qed.

Lemma classify_document_type_in_names text use_ai resp :
  In (document_type (classify_document text use_ai resp)) signature_names.
Proof.
  unfold classify_document.
  pose proof (top3_props text) as [Hlen _].
  pose proof (top3_in_names text) as Hin.
  destruct (firstn 3 (Py.sort_desc snd (rule_based_classification text))) as [|[t s] rest] eqn:E;
    [discriminate|].
  simpl.
  destruct (use_ai && Nat.ltb s 5); simpl.
  - apply ai_type_in_names; [discriminate|].
    apply Forall_forall. intros c Hc. destruct Hc as [<-|Hc].
    + apply (Hin (t, s)). left; reflexivity.
    + apply in_map_iff in Hc as [x [<- Hx]]. apply Hin. right; exact Hx.
  - apply (Hin (t, s)). left; reflexivity.
Qed.

Lemma classify_document_scores text use_ai resp :
  rule_based_scores (classify_document text use_ai resp) =
  firstn 3 (Py.sort_desc snd (rule_based_classification text)).
Proof.
  unfold classify_document.
  destruct (firstn 3 (Py.sort_desc snd (rule_based_classification text))) as [|[t s] rest];
    simpl; [destruct use_ai; reflexivity|].
  destruct (use_ai && Nat.ltb s 5); reflexivity.
Qed.

Lemma similarity_check :
  forallb (fun d =>
             match suggest_similar_documents d with
             | [a; b] => negb (String.eqb a b) && negb (String.eqb a d) && negb (String.eqb b d) &&
                         existsb (String.eqb a) signature_names &&
                         existsb (String.eqb b) signature_names
             | _ => false
             end) signature_names = true.
Proof. vm_compute. reflexivity. Qed.

Lemma dict_get_none {A} (k : string) (d : list (string * A)) :
  ~ In k (map fst d) -> NER.dict_get k d = None.
Proof.
  induction d as [|[k' v] d IH]; intros H; simpl; [reflexivity|].
  destruct (String.eqb k k') eqn:E.
  - apply String.eqb_eq in E. subst. exfalso. apply H. left; reflexivity.
  - apply IH. intros Hk. apply H. right; exact Hk.
Qed.

Lemma suggest_similar_spec d :
  (In d signature_names ->
   exists a b, suggest_similar_documents d = [a; b] /\ a <> b /\ a <> d /\ b <> d /\
               In a signature_names /\ In b signature_names) /\
  (~ In d signature_names -> suggest_similar_documents d = []).
Proof.
  split.
  - intros Hd. pose proof similarity_check as H. rewrite forallb_forall in H.
    specialize (H d Hd).
    destruct (suggest_similar_documents d) as [|a [|b [|c l]]]; try discriminate.
    exists a, b. split; [reflexivity|].
    apply andb_true_iff in H as [H Hb]. apply andb_true_iff in H as [H Ha].
    apply andb_true_iff in H as [H Hbd]. apply andb_true_iff in H as [Hab Had].
    apply negb_true_iff, String.eqb_neq in Hab, Had, Hbd.
    repeat split; try assumption; apply existsb_eqb_in; assumption.
  - intros Hd. unfold suggest_similar_documents.
    rewrite dict_get_none; [reflexivity|].
    replace (map fst similarity_map) with signature_names by reflexivity. exact Hd.
Qed.

(** [re.search] facts *)
Lemma is_empty_nullable r : is_empty r = true -> nullable r = false.
Proof.
  induction r; simpl; intros H; try discriminate; try reflexivity.
  - apply orb_true_iff in H as [H|H]; [rewrite IHr1 by exact H | rewrite IHr2 by exact H];
      [reflexivity | apply andb_false_r].
  - apply andb_true_iff in H as [H1 H2]. rewrite IHr1, IHr2 by assumption. reflexivity.
Qed.

Lemma is_empty_deriv r c : is_empty r = true -> is_empty (deriv c r) = true.
Proof.
  induction r; simpl; intros H; try discriminate; try reflexivity.
  - apply orb_true_iff in H as [H|H].
    + rewrite (is_empty_nullable r1 H). simpl. rewrite IHr1 by exact H. reflexivity.
    + destruct (nullable r1); simpl; rewrite ?H, ?IHr2 by exact H; rewrite ?orb_true_r; reflexivity.
  - apply andb_true_iff in H as [H1 H2]. rewrite IHr1, IHr2 by assumption. reflexivity.
Qed.

Lemma is_empty_prefix_match r l : is_empty r = true -> prefix_match r l = false.
Proof.
  revert r; induction l as [|c l IH]; intros r H; simpl; rewrite (is_empty_nullable r H);
    simpl; [reflexivity|].
  apply IH, is_empty_deriv, H.
Qed.

Lemma prefix_match_app r w l :
  nullable (fold_left (fun r c => deriv c r) w r) = true -> prefix_match r (w ++ l) = true.
Proof.
  revert r; induction w as [|c w IH]; intros r H; simpl in *.
  - destruct l; simpl; rewrite H; reflexivity.
  - apply orb_true_iff. right. apply IH, H.
Qed.

Lemma search_app r pre l : prefix_match r l = true -> search r (pre ++ l) = true.
Proof.
  induction pre as [|c pre IH]; intros H; simpl.
  - destruct l; simpl in *; rewrite H; reflexivity.
  - apply orb_true_iff. right. apply IH, H.
Qed.

Lemma prefix_split n h : String.prefix n h = true -> exists s, h = (n ++ s)%string.
Proof.
  revert h; induction n as [|c n IH]; intros h H.
  - exists h. reflexivity.
  - destruct h as [|d h]; [discriminate|]. simpl in H.
    destruct (ascii_dec c d) as [<-|]; [|discriminate].
    destruct (IH h H) as [s ->]. exists s. reflexivity.
Qed.

Lemma contains_split n h :
  PyStr.contains n h = true -> exists p s, h = (p ++ n ++ s)%string.
Proof.
  induction h as [|c h IH]; intros H; cbn [PyStr.contains] in H; apply orb_true_iff in H as [H|H].
  - destruct (prefix_split _ _ H) as [s ->]. exists "", s. reflexivity.
  - discriminate.
  - destruct (prefix_split _ _ H) as [s ->]. exists "", s. reflexivity.
  - destruct (IH H) as [p [s ->]]. exists (String c p), s. reflexivity.
Qed.

Lemma month_names_matched :
  forallb (fun m => nullable (fold_left (fun r c => deriv c r) (list_ascii_of_string m) date_re))
          month_names = true.
Proof. vm_compute. reflexivity. Qed.

Lemma money_deriv_empty c :
  is_dollar c = false -> is_digit c = false -> is_empty (deriv c money_re) = true.
Proof.
  intros H1 H2. unfold money_re, plus, opt, digit. cbn [deriv nullable].
  rewrite H1, H2. reflexivity.
Qed.

Lemma money_deriv_nullable c :
  is_dollar c = true \/ is_digit c = true -> nullable (deriv c money_re) = true.
Proof.
  unfold money_re, plus, opt, digit. cbn [deriv nullable].
  intros [H|H]; rewrite H; [reflexivity|]. destruct (is_dollar c); reflexivity.
Qed.

Lemma search_money l :
  search money_re l = true <-> exists c, In c l /\ (is_dollar c = true \/ is_digit c = true).
Proof.
  split.
  - induction l as [|c l IH]; intros H; cbn [search] in H.
    + apply orb_true_iff in H as [H|H]; [|discriminate].
      vm_compute in H. discriminate.
    + apply orb_true_iff in H as [H|H].
      * destruct (is_dollar c) eqn:Hd; [exists c; split; [left; reflexivity|left; exact Hd]|].
        destruct (is_digit c) eqn:Hg; [exists c; split; [left; reflexivity|right; exact Hg]|].
        exfalso. cbn [prefix_match] in H.
        rewrite (is_empty_prefix_match _ _ (money_deriv_empty c Hd Hg)) in H. discriminate.
      * destruct (IH H) as [c' [Hin Hc]]. exists c'. split; [right; exact Hin|exact Hc].
  - intros [c [Hin Hc]]. apply in_split in Hin as [pre [suf ->]].
    apply search_app. cbn [prefix_match]. apply orb_true_iff. right.
    destruct suf; cbn [prefix_match]; rewrite money_deriv_nullable by exact Hc; reflexivity.
Qed.

Lemma formality_spec text :
  let ch := get_document_characteristics text in
  (estimated_formality ch = "Low" <-> has_legal_jargon ch = false) /\
  (estimated_formality ch = "High" -> has_legal_jargon ch = true) /\
  In (estimated_formality ch) ["Low"; "Medium"; "High"].
Proof.
  unfold get_document_characteristics. cbn [estimated_formality has_legal_jargon].
  generalize (List.length (filter (fun term => PyStr.contains term (PyStr.lower text))
                            characteristic_legal_terms)) as n. intros n.
  destruct (Nat.leb 4 n) eqn:E4; [|destruct (Nat.leb n 1) eqn:E1].
  - apply Nat.leb_le in E4. assert (Nat.leb 2 n = true) as -> by (apply Nat.leb_le; lia).
    split; [split; discriminate|]. split; [reflexivity|]. right; right; left; reflexivity.
  - apply Nat.leb_le in E1. assert (Nat.leb 2 n = false) as -> by (apply Nat.leb_gt; lia).
    split; [split; reflexivity|]. split; [discriminate|]. left; reflexivity.
  - apply Nat.leb_gt in E1. assert (Nat.leb 2 n = true) as -> by (apply Nat.leb_le; lia).
    split; [split; discriminate|]. split; [discriminate|]. right; left; reflexivity.
Qed.

Lemma month_has_dates text m :
  In m month_names -> PyStr.contains m (PyStr.lower text) = true ->
  has_dates (get_document_characteristics text) = true.
Proof.
  intros Hm Hc. unfold get_document_characteristics. cbn [has_dates]. unfold re_search.
  destruct (contains_split _ _ Hc) as [p [s ->]].
  rewrite !ScoreFacts.list_ascii_of_string_app.
  apply search_app, prefix_match_app.
  pose proof month_names_matched as H. rewrite forallb_forall in H. exact (H m Hm).
Qed.

End ClassifierMoreFacts.

Module StrFacts.
Import PyStr.
Local Open Scope string_scope.

Lemma str_app_assoc (a b c : string) : ((a ++ b) ++ c) = (a ++ (b ++ c)).
Proof. induction a as [|x a IH]; simpl; [reflexivity|]. rewrite IH. reflexivity. Qed.

Lemma str_app_nil (a : string) : (a ++ "") = a.
Proof. induction a as [|x a IH]; simpl; [reflexivity|]. rewrite IH. reflexivity. Qed.

Lemma str_length_app (a b : string) : String.length (a ++ b) = String.length a + String.length b.
Proof. induction a as [|x a IH]; simpl; [reflexivity|]. rewrite IH. reflexivity. Qed.

Lemma prefix_self_app (a b : string) : String.prefix a (a ++ b) = true.
Proof.
  induction a as [|x a IH]; simpl; [destruct b; reflexivity|].
  destruct (ascii_dec x x) as [_|n]; [exact IH|congruence].
Qed.

Lemma contains_of_prefix n h : String.prefix n h = true -> contains n h = true.
Proof. intros H. destruct h; cbn [contains]; apply orb_true_iff; left; exact H. Qed.

Lemma contains_of_split n p s : contains n (p ++ n ++ s) = true.
Proof.
  induction p as [|c p IH].
  - change (contains n (n ++ s) = true). apply contains_of_prefix, prefix_self_app.
  - cbn [String.append contains]. rewrite IH, orb_true_r. reflexivity.
Qed.

Lemma contains_iff n h : contains n h = true <-> exists p s, h = (p ++ n ++ s).
Proof.
  split.
  - apply ClassifierMoreFacts.contains_split.
  - intros [p [s ->]]. apply contains_of_split.
Qed.

(** [a] occurs in [b] *)
Definition sub (a b : string) : Prop := exists p s, b = (p ++ a ++ s).

Lemma sub_trans a b c : sub a b -> sub b c -> sub a c.
Proof.
  intros [p [s ->]] [p' [s' ->]]. exists (p' ++ p), (s ++ s').
  rewrite !str_app_assoc. reflexivity.
Qed.

Lemma lstrip_suffix s : exists p, s = (p ++ lstrip s).
Proof.
  induction s as [|c s [p Hp]]; simpl; [exists ""; reflexivity|].
  destruct (is_space c); [exists (String c p); simpl; rewrite <- Hp; reflexivity|].
  exists ""; reflexivity.
Qed.

Lemma rstrip_prefix s : exists q, s = (rstrip s ++ q).
Proof.
  induction s as [|c s [q Hq]]; simpl; [exists ""; reflexivity|].
  destruct (rstrip s) as [|d r] eqn:E.
  - destruct (is_space c); [exists (String c s); reflexivity|].
    exists s. reflexivity.
  - exists q. simpl. rewrite Hq at 1. reflexivity.
Qed.

Lemma strip_sub s : sub (strip s) s.
Proof.
  unfold strip. destruct (lstrip_suffix s) as [p Hp]. destruct (rstrip_prefix (lstrip s)) as [q Hq].
  exists p, q. rewrite <- Hq. exact Hp.
Qed.

Lemma contains_sub n a b : contains n a = true -> sub a b -> contains n b = true.
Proof.
  intros Ha Hab. apply contains_iff. apply contains_iff in Ha. exact (sub_trans n a b Ha Hab).
Qed.

Lemma strip_contains n s : contains n (strip s) = true -> contains n s = true.
Proof. intros H. exact (contains_sub n _ _ H (strip_sub s)). Qed.

Lemma strip_length s : String.length (strip s) <= String.length s.
Proof.
  destruct (strip_sub s) as [p [q Hs]]. rewrite Hs at 2. rewrite !str_length_app. lia.
Qed.

(** stripping keeps an inner word that starts and ends with a non-space *)
Lemma lstrip_keep p t q c :
  is_space c = false -> exists p', lstrip (p ++ String c t ++ q) = (p' ++ String c t ++ q).
Proof.
  intros Hc. induction p as [|d p IH]; simpl.
  - rewrite Hc. exists "". reflexivity.
  - destruct (is_space d); [exact IH|]. exists (String d p). reflexivity.
Qed.

Lemma rstrip_keep_word t c q :
  is_space c = false -> rstrip ((t ++ String c "") ++ q) = ((t ++ String c "") ++ rstrip q).
Proof.
  intros Hc. induction t as [|d t IH]; cbn [String.append rstrip].
  - destruct (rstrip q); [rewrite Hc|]; reflexivity.
  - rewrite IH. destruct t; reflexivity.
Qed.

Lemma rstrip_keep p t c q :
  is_space c = false ->
  rstrip (p ++ (t ++ String c "") ++ q) = (p ++ (t ++ String c "") ++ rstrip q).
Proof.
  intros Hc. induction p as [|d p IH]; cbn [String.append rstrip].
  - apply rstrip_keep_word, Hc.
  - rewrite IH. destruct p; [destruct t|]; reflexivity.
Qed.

Lemma strip_keeps n h :
  n <> "" -> (forall c n', n = String c n' -> is_space c = false) ->
  (forall t c, n = (t ++ String c "") -> is_space c = false) ->
  contains n h = true -> contains n (strip h) = true.
Proof.
  intros Hne Hhd Htl H. apply contains_iff in H as [p [s ->]].
  destruct n as [|c n'] eqn:En; [congruence|].
  destruct (lstrip_keep p n' s c (Hhd c n' eq_refl)) as [p' Hp']. unfold strip. rewrite Hp'.
  clear Hp'.
  assert (exists t d, String c n' = (t ++ String d "")) as [t [d Ht]].
  { clear. revert c. induction n' as [|e n' IH]; intros c.
    - exists "", c. reflexivity.
    - destruct (IH e) as [t [d Ht]]. exists (String c t), d. simpl. rewrite Ht. reflexivity. }
  rewrite Ht. rewrite (rstrip_keep p' t d s (Htl t d Ht)). apply contains_of_split.
Qed.

(** [lower] and [strip] commute *)
Lemma is_space_lower_char c : is_space (lower_char c) = is_space c.
Proof. destruct c as [[] [] [] [] [] [] [] []]; reflexivity. Qed.

Lemma lower_empty s : lower s = "" -> s = "".
Proof. destruct s; [reflexivity|discriminate]. Qed.

Lemma lower_lstrip s : lower (lstrip s) = lstrip (lower s).
Proof.
  induction s as [|c s IH]; simpl; [reflexivity|]. rewrite is_space_lower_char.
  destruct (is_space c); [exact IH|reflexivity].
Qed.

Lemma lower_rstrip s : lower (rstrip s) = rstrip (lower s).
Proof.
  induction s as [|c s IH]; simpl; [reflexivity|]. rewrite <- IH.
  destruct (rstrip s) as [|d r] eqn:E; simpl.
  - rewrite is_space_lower_char. destruct (is_space c); reflexivity.
  - reflexivity.
Qed.

Lemma lower_strip s : lower (strip s) = strip (lower s).
Proof. unfold strip. rewrite lower_rstrip, lower_lstrip. reflexivity. Qed.

End StrFacts.

Module GraniteFacts.
Import Granite StrFacts PyStr.
Local Open Scope string_scope.

Lemma split_sep_nonempty f sep s : split_sep_fuel f sep s <> [].
Proof.
  revert s; induction f as [|f IH]; intros s; simpl; [discriminate|].
  destruct (String.prefix sep s); [discriminate|].
  destruct s as [|c s]; [discriminate|]. destruct (split_sep_fuel f sep s); discriminate.
Qed.

Lemma split_sep_single f sep s w : split_sep_fuel f sep s = [w] -> w = s.
Proof.
  revert s w; induction f as [|f IH]; intros s w H; simpl in H; [congruence|].
  destruct (String.prefix sep s).
  - injection H as _ H. destruct (split_sep_fuel f sep _) as [|x [|y l]] eqn:E; try discriminate.
    exfalso. exact (split_sep_nonempty f sep _ E).
  - destruct s as [|c s]; [congruence|].
    destruct (split_sep_fuel f sep s) as [|w' ws] eqn:E.
    + exfalso. exact (split_sep_nonempty f sep _ E).
    + injection H as <- ->. rewrite (IH s w' E). reflexivity.
Qed.

Lemma last_cons_ne {A} (x : A) l d : l <> [] -> last (x :: l) d = last l d.
Proof. destruct l; [congruence|reflexivity]. Qed.

Lemma substring0_all s : substring 0 (String.length s) s = s.
Proof. induction s as [|c s IH]; simpl; [reflexivity|]. rewrite IH. reflexivity. Qed.

Lemma substring_after a b :
  substring (String.length a) (String.length (a ++ b) - String.length a) (a ++ b) = b.
Proof.
  rewrite str_length_app. replace (String.length a + String.length b - String.length a)
    with (String.length b) by lia.
  induction a as [|c a IH]; simpl; [apply substring0_all|exact IH].
Qed.

Lemma last_split_sep f sep s :
  sep <> "" -> String.length s < f ->
  contains sep (last (split_sep_fuel f sep s) "") = false /\
  exists p, s = (p ++ last (split_sep_fuel f sep s) "").
Proof.
  intros Hsep. revert s; induction f as [|f IH]; intros s Hlen; [lia|].
  cbn [split_sep_fuel].
  destruct (String.prefix sep s) eqn:Hp.
  - destruct (ClassifierMoreFacts.prefix_split _ _ Hp) as [t ->].
    rewrite substring_after. rewrite last_cons_ne by apply split_sep_nonempty.
    destruct (IH t) as [Hc [p Hs]].
    + rewrite str_length_app in Hlen. destruct sep; [congruence|]. simpl in Hlen. lia.
    + split; [exact Hc|]. exists (sep ++ p). rewrite str_app_assoc, <- Hs. reflexivity.
  - destruct s as [|c s].
    + split; [destruct sep; [congruence|reflexivity]|]. exists "". reflexivity.
    + destruct (split_sep_fuel f sep s) as [|w ws] eqn:E.
      * exfalso. exact (split_sep_nonempty f sep _ E).
      * simpl in Hlen. destruct (IH s ltac:(lia)) as [Hc [p Hs]]. rewrite E in Hc, Hs.
        destruct ws as [|x ws].
        -- pose proof (split_sep_single _ _ _ _ E) as ->. cbn [last].
           split; [cbn [contains]; rewrite Hp; exact Hc|]. exists "". reflexivity.
        -- rewrite last_cons_ne in Hc, Hs |- * by discriminate.
           split; [exact Hc|]. exists (String c p). rewrite Hs at 1. reflexivity.
Qed.

End GraniteFacts.

Module NERMoreFacts.
Import NER StrFacts PyStr.
Local Open Scope string_scope.

Lemma remove_commas_free s : ~ In ","%char (list_ascii_of_string (remove_commas s)).
Proof.
  induction s as [|c s IH]; simpl; [tauto|].
  destruct (Ascii.eqb c ",") eqn:E; [exact IH|].
  simpl. intros [H|H]; [|exact (IH H)]. subst. discriminate E.
Qed.

Lemma substring0_prefix m s : exists q, s = (substring 0 m s ++ q).
Proof.
  revert s; induction m as [|m IH]; intros s; [exists s; destruct s; reflexivity|].
  destruct s as [|c s]; [exists ""; reflexivity|].
  destruct (IH s) as [q Hq]. exists q. simpl. rewrite <- Hq. reflexivity.
Qed.

Lemma substring_sub n m s : sub (substring n m s) s.
Proof.
  revert s; induction n as [|n IH]; intros s.
  - destruct (substring0_prefix m s) as [q Hq]. exists "", q. exact Hq.
  - destruct s as [|c s]; [exists "", ""; destruct m; reflexivity|].
    destruct (IH s) as [p [q Hq]]. exists (String c p), q. simpl. rewrite Hq at 1. reflexivity.
Qed.

Lemma substring_length_le n m s : String.length (substring n m s) <= m.
Proof.
  revert s; induction n as [|n IH]; intros s.
  - apply SimplifyFacts.substring0_length.
  - destruct s as [|c s]; [destruct m; simpl; lia|]. apply IH.
Qed.

Lemma get_last_char t c :
  String.get (String.length (t ++ String c "") - 1) (t ++ String c "") = Some c.
Proof.
  induction t as [|d t IH]; [reflexivity|].
  rewrite str_length_app in *. cbn [String.length String.append] in *.
  replace (S (String.length t) + 1 - 1) with (S (String.length t + 1 - 1)) by lia.
  exact IH.
Qed.

(** the lower-cased obligation keywords start and end with a non-space *)
Lemma obligation_keywords_ends :
  forallb (fun k =>
             match lower k with
             | EmptyString => false
             | String c _ => negb (is_space c) &&
                 match String.get (String.length (lower k) - 1) (lower k) with
                 | Some d => negb (is_space d)
                 | None => false
                 end
             end) obligation_keywords = true.
Proof. vm_compute. reflexivity. Qed.

Lemma word_ends_strip k h :
  match k with
  | EmptyString => false
  | String c _ => negb (is_space c) &&
      match String.get (String.length k - 1) k with
      | Some d => negb (is_space d)
      | None => false
      end
  end = true ->
  contains k h = true -> contains k (strip h) = true.
Proof.
  intros Hk. apply strip_keeps.
  - destruct k; [discriminate|congruence].
  - intros c n' ->. apply andb_true_iff in Hk as [Hk _]. apply negb_true_iff, Hk.
  - intros t c Ht. destruct k as [|c0 k']; [discriminate|].
    apply andb_true_iff in Hk as [_ Hk].
    rewrite Ht, get_last_char in Hk. apply negb_true_iff, Hk.
Qed.

Lemma in_firstn'' {A} n (l : list A) x : In x (firstn n l) -> In x l.
Proof. intros H. rewrite <- (firstn_skipn n l). apply in_or_app. left; exact H. Qed.

Lemma NoDup_firstn' {A} n (l : list A) : NoDup l -> NoDup (firstn n l).
Proof.
  intros H. rewrite <- (firstn_skipn n l) in H. exact (NoDup_app_remove_r _ _ H).
Qed.

Lemma legal_terms_nodup : NoDup legal_terms.
Proof.
  unfold legal_terms. repeat constructor; simpl; intuition discriminate.
Qed.

(** the loop body of [_extract_legal_terms], one term at a time *)
Section TermLoop.
Variable text : string.
Variable tf : string -> list (nat * nat).
Variable f : string -> list entity.
Hypothesis Hf : forall term, f term =
  match tf term with
  | [] => []
  | (st, en) :: rest =>
      [[("term", PStr term); ("count", PInt (S (List.length rest)));
        ("context", PStr (get_context text st en))]]
  end.

Lemma term_records_nodup l : NoDup l -> NoDup (concat (map f l)).
Proof.
  induction 1 as [|x l Hx Hl IH]; simpl; [constructor|].
  rewrite Hf. destruct (tf x) as [|[st en] rest] eqn:E; simpl; [exact IH|].
  constructor; [|exact IH].
  intros Hin. apply in_concat in Hin as [r [Hr Hin]]. apply in_map_iff in Hr as [y [<- Hy]].
  rewrite Hf in Hin. destruct (tf y) as [|[st' en'] rest']; [contradiction|].
  destruct Hin as [Heq|[]]. injection Heq as Hxy. subst. contradiction.
Qed.

Lemma term_records_in l e :
  In e (concat (map f l)) ->
  exists term st en rest, In term l /\ tf term = (st, en) :: rest /\
    e = [("term", PStr term); ("count", PInt (S (List.length rest)));
         ("context", PStr (get_context text st en))].
Proof.
  intros H. apply in_concat in H as [r [Hr Hin]]. apply in_map_iff in Hr as [term [<- Ht]].
  rewrite Hf in Hin. destruct (tf term) as [|[st en] rest] eqn:E; [contradiction|].
  destruct Hin as [<-|[]]. exists term, st, en, rest. split; [exact Ht|split; [exact E|reflexivity]].
Qed.

Lemma term_records_mem l term st en rest :
  In term l -> tf term = (st, en) :: rest ->
  In [("term", PStr term); ("count", PInt (S (List.length rest)));
      ("context", PStr (get_context text st en))]
     (concat (map f l)).
Proof.
  intros Hin Ht. apply in_concat. eexists. split; [apply in_map, Hin|].
  rewrite Hf, Ht. left. reflexivity.
Qed.

End TermLoop.

Lemma extract_legal_terms_loop tf text :
  exists f, (forall term, f term =
    match tf term (lower text) with
    | [] => []
    | (st, en) :: rest =>
        [[("term", PStr term); ("count", PInt (S (List.length rest)));
          ("context", PStr (get_context text st en))]]
    end) /\
  extract_legal_terms tf text = firstn 15 (Py.sort_desc entity_count (concat (map f legal_terms))).
Proof.
  unfold extract_legal_terms.
  match goal with |- context [concat (map ?g legal_terms)] => exists g end.
  split; [|reflexivity].
  intros term. destruct (tf term (lower text)) as [|[st en] rest]; reflexivity.
Qed.

End NERMoreFacts.

Module ClauseMoreFacts.
Import ClauseAnalyzer ClauseAnalyzerMore.
Local Open Scope string_scope.

Lemma dict_get_set_eq {A} k (v : A) d : NER.dict_get k (NER.dict_set k v d) = Some v.
Proof.
  induction d as [|[k' v'] d IH]; simpl; [rewrite String.eqb_refl; reflexivity|].
  destruct (String.eqb k k') eqn:E; simpl; rewrite ?String.eqb_refl; [reflexivity|].
  rewrite E. exact IH.
Qed.

Lemma dict_get_set_ne {A} k k' (v : A) d :
  k' <> k -> NER.dict_get k' (NER.dict_set k v d) = NER.dict_get k' d.
Proof.
  intros Hne. apply String.eqb_neq in Hne.
  induction d as [|[k0 v0] d IH]; simpl; [rewrite Hne; reflexivity|].
  destruct (String.eqb k k0) eqn:E; simpl.
  - apply String.eqb_eq in E. subst. rewrite Hne. reflexivity.
  - rewrite IH. reflexivity.
Qed.

Lemma dict_set_keys {A} k (v : A) d x :
  In x (map fst (NER.dict_set k v d)) <-> x = k \/ In x (map fst d).
Proof.
  induction d as [|[k0 v0] d IH]; simpl; [firstorder congruence|].
  destruct (String.eqb k k0) eqn:E; simpl.
  - apply String.eqb_eq in E. subst. firstorder congruence.
  - rewrite IH. firstorder congruence.
Qed.

Lemma dict_set_nodup {A} k (v : A) d :
  NoDup (map fst d) -> NoDup (map fst (NER.dict_set k v d)).
Proof.
  induction d as [|[k0 v0] d IH]; simpl; intros H; [repeat constructor; simpl; tauto|].
  inversion H as [|? ? Hn Hd]; subst.
  destruct (String.eqb k k0) eqn:E; simpl.
  - apply String.eqb_eq in E. subst. constructor; assumption.
  - constructor; [|apply IH, Hd]. rewrite dict_set_keys. intros [Hk|Hk]; [|contradiction].
    subst. rewrite String.eqb_refl in E. discriminate.
Qed.

Lemma dict_set_incr_sum k d :
  list_sum (map snd (NER.dict_set k (get_or 0 (NER.dict_get k d) + 1) d)) =
  S (list_sum (map snd d)).
Proof.
  induction d as [|[k0 v0] d IH]; simpl; [reflexivity|].
  destruct (String.eqb k k0) eqn:E; simpl; [lia|]. rewrite IH. lia.
Qed.

Lemma dict_set_pos k v (d : list (string * nat)) :
  0 < v -> Forall (fun p => 0 < snd p) d -> Forall (fun p => 0 < snd p) (NER.dict_set k v d).
Proof.
  intros Hv. induction 1 as [|[k0 v0] d H0 Hd IH]; simpl; [repeat constructor; exact Hv|].
  destruct (String.eqb k k0); constructor; assumption.
Qed.

Lemma dict_get_in {A} k (v : A) d : NER.dict_get k d = Some v -> In (k, v) d.
Proof.
  induction d as [|[k0 v0] d IH]; simpl; [discriminate|].
  destruct (String.eqb k k0) eqn:E; intros H.
  - apply String.eqb_eq in E. injection H as <-. subst. left; reflexivity.
  - right. apply IH, H.
Qed.

(** the number of clauses whose [type] is [t] ("General" when missing) *)
Lemma count_types_go cs acc :
  let r := fold_left (fun d clause =>
               let t := get_or "General" (cd_type clause) in
               NER.dict_set t (get_or 0 (NER.dict_get t d) + 1) d) cs acc in
  list_sum (map snd r) = list_sum (map snd acc) + List.length cs /\
  (NoDup (map fst acc) -> NoDup (map fst r)) /\
  (Forall (fun p => 0 < snd p) acc -> Forall (fun p => 0 < snd p) r) /\
  (forall t, get_or 0 (NER.dict_get t r) =
             get_or 0 (NER.dict_get t acc) +
             List.length (filter (fun c => String.eqb (get_or "General" (cd_type c)) t) cs)).
Proof.
  revert acc; induction cs as [|c cs IH]; intros acc r.
  - subst r. simpl. split; [lia|]. split; [tauto|]. split; [tauto|]. intros t; lia.
  - subst r. cbn [fold_left].
    destruct (IH (NER.dict_set (get_or "General" (cd_type c))
                   (get_or 0 (NER.dict_get (get_or "General" (cd_type c)) acc) + 1) acc))
      as [H1 [H2 [H3 H4]]].
    cbv beta zeta in H1, H2, H3, H4 |- *.
    split; [rewrite H1, dict_set_incr_sum; simpl; lia|].
    split; [intros Hn; apply H2, dict_set_nodup, Hn|].
    split; [intros Hp; apply H3, dict_set_pos; [lia|exact Hp]|].
    intros t. rewrite H4. cbn [filter List.length].
    destruct (String.eqb (get_or "General" (cd_type c)) t) eqn:E.
    + apply String.eqb_eq in E. rewrite <- E, dict_get_set_eq. simpl. lia.
    + apply String.eqb_neq in E. rewrite dict_get_set_ne by congruence. reflexivity.
Qed.

Lemma simplify_clause_original t m r : original (simplify_clause t m r) = t.
Proof.
  unfold simplify_clause. destruct r as [resp|e]; [|reflexivity].
  destruct (Nat.eqb (String.length t) 0); reflexivity.
Qed.

Lemma simplify_clause_ok t m resp :
  String.length t <> 0 -> error (simplify_clause t m (Returned resp)) = None.
Proof.
  intros H. unfold simplify_clause. apply Nat.eqb_neq in H. rewrite H. reflexivity.
Qed.

Lemma batch_go_selection svc calls i cs :
  map (fun b => (original (br_result b), br_type b)) (batch_go svc calls i cs) =
  map (fun c => (get_or "" (cd_content c), get_or "General" (cd_type c)))
      (filter (fun c => negb (Nat.ltb (String.length (get_or "" (cd_content c))) 50)) cs).
Proof.
  revert calls i; induction cs as [|c cs IH]; intros calls i; simpl; [reflexivity|].
  destruct (Nat.ltb (String.length (get_or "" (cd_content c))) 50); simpl; [apply IH|].
  rewrite simplify_clause_original, IH. reflexivity.
Qed.

Lemma batch_go_no_error svc calls i cs :
  (forall k, exists r, svc k = Returned r) ->
  Forall (fun b => error (br_result b) = None) (batch_go svc calls i cs).
Proof.
  intros Hs. revert calls i; induction cs as [|c cs IH]; intros calls i; simpl; [constructor|].
  destruct (Nat.ltb (String.length (get_or "" (cd_content c))) 50) eqn:E; [apply IH|].
  constructor; [|apply IH]. cbn [br_result].
  destruct (Hs calls) as [r ->]. apply simplify_clause_ok.
  apply Nat.ltb_ge in E. lia.
Qed.

Lemma list_slice_to_length {A} (l : list A) m :
  (0 <= m)%Z -> List.length (list_slice_to l m) <= Z.to_nat m.
Proof.
  intros H. unfold list_slice_to. apply Z.leb_le in H. rewrite H. rewrite length_firstn. lia.
Qed.

End ClauseMoreFacts.

Section ClassifierExtras.
Import DocClassifier DocClassifierMore.
Local Open Scope string_scope.

(** X1 ([classify_document], [_ai_classification]): whatever the text, the
    [use_ai] flag and the outcome of the service call, the returned
    [document_type] is one of the ten names of [document_signatures]; in
    particular it is never 'Unknown' (the AI path always receives three
    candidates). *)
Theorem classify_document_type_in_catalog text use_ai resp :
  In (document_type (classify_document text use_ai resp)) signature_names /\
  document_type (classify_document text use_ai resp) <> "Unknown".
Proof.
  pose proof (ClassifierMoreFacts.classify_document_type_in_names text use_ai resp) as H.
  split; [exact H|]. intros E. rewrite E in H. vm_compute in H. intuition discriminate.
Qed.

(** X2 ([classify_document]): [rule_based_scores] holds exactly three
    (name, score) pairs, in non-increasing score order, and together with the
    omitted pairs they are a permutation of the rule-based scores, every
    omitted score being at most every kept one. *)
Theorem classify_document_scores_top3 text use_ai resp :
  let top := rule_based_scores (classify_document text use_ai resp) in
  List.length top = 3 /\
  Sorted (fun a b => snd b <= snd a) top /\
  exists rest, Permutation (top ++ rest) (rule_based_classification text) /\
    Forall (fun y => Forall (fun x => snd y <= snd x) top) rest.
Proof.
  intros top. unfold top. rewrite ClassifierMoreFacts.classify_document_scores.
  apply ClassifierMoreFacts.top3_props.
Qed.

(** X3 ([suggest_similar_documents]): for a catalog name the suggestions are
    two distinct catalog names, both different from it; any other string
    gets no suggestion. *)
Theorem suggest_similar_documents_spec d :
  (In d signature_names ->
   exists a b, suggest_similar_documents d = [a; b] /\ a <> b /\ a <> d /\ b <> d /\
               In a signature_names /\ In b signature_names) /\
  (~ In d signature_names -> suggest_similar_documents d = []).
Proof. apply ClassifierMoreFacts.suggest_similar_spec. Qed.

(** X4 ([classify_document] then [suggest_similar_documents]): the type a
    classification returns always has two distinct suggestions, both catalog
    names other than itself. *)
Theorem suggest_similar_for_classified text use_ai resp :
  let d := document_type (classify_document text use_ai resp) in
  exists a b, suggest_similar_documents d = [a; b] /\ a <> b /\ a <> d /\ b <> d /\
              In a signature_names /\ In b signature_names.
Proof.
  intros d. apply (proj1 (ClassifierMoreFacts.suggest_similar_spec d)).
  apply ClassifierMoreFacts.classify_document_type_in_names.
Qed.

(** X5 ([get_document_characteristics]): the formality is Low exactly when
    [has_legal_jargon] is false, High implies [has_legal_jargon], and the
    value is always Low, Medium or High. *)
Theorem document_formality_consistent text :
  let ch := get_document_characteristics text in
  (estimated_formality ch = "Low" <-> has_legal_jargon ch = false) /\
  (estimated_formality ch = "High" -> has_legal_jargon ch = true) /\
  In (estimated_formality ch) ["Low"; "Medium"; "High"].
Proof. apply ClassifierMoreFacts.formality_spec. Qed.

(** X6 ([get_document_characteristics]): [has_monetary_terms] holds exactly
    when the text has a dollar sign or a digit, or its lower-cased form
    contains 'payment' (the search pattern matches any single [$] or digit). *)
Theorem document_monetary_terms_spec text :
  has_monetary_terms (get_document_characteristics text) = true <->
  (exists c, In c (list_ascii_of_string text) /\
             (ReSearch.is_dollar c = true \/ ReSearch.is_digit c = true)) \/
  PyStr.contains "payment" (PyStr.lower text) = true.
Proof.
  unfold get_document_characteristics. cbn [has_monetary_terms]. unfold ReSearch.re_search.
  rewrite orb_true_iff, ClassifierMoreFacts.search_money. reflexivity.
Qed.

(** X7 ([get_document_characteristics]): any month name occurring in the
    lower-cased text, also inside another word such as 'may' in 'mayor',
    sets [has_dates]. *)
Theorem document_month_name_dates text m :
  In m month_names -> PyStr.contains m (PyStr.lower text) = true ->
  has_dates (get_document_characteristics text) = true.
Proof. apply ClassifierMoreFacts.month_has_dates. Qed.

Lemma document_month_name_dates_witness :
  In "may" month_names /\ PyStr.contains "may" (PyStr.lower "Signed in May") = true /\
  has_dates (get_document_characteristics "Signed in May") = true.
Proof.
  split; [vm_compute; tauto|]. split; [vm_compute; reflexivity|].
  apply (document_month_name_dates "Signed in May" "may"); vm_compute; [tauto|reflexivity].
Defined.

End ClassifierExtras.

Section ClauseAnalyzerExtras.
Import ClauseAnalyzer ClauseAnalyzerMore.
Local Open Scope string_scope.

(** X8 ([batch_simplify]): the results are, in order, the clauses of
    [clauses[:max_clauses]] whose content (default '') has at least 50
    characters: each result's [original] is that content and its [type] the
    clause's type (default 'General'); for a non-negative [max_clauses] there
    are at most [max_clauses] results. *)
Theorem batch_simplify_selection svc clauses m :
  map (fun b => (original (br_result b), br_type b)) (batch_simplify svc clauses m) =
  map (fun c => (get_or "" (cd_content c), get_or "General" (cd_type c)))
      (filter (fun c => negb (Nat.ltb (String.length (get_or "" (cd_content c))) 50))
              (list_slice_to clauses m)) /\
  ((0 <= m)%Z -> List.length (batch_simplify svc clauses m) <= Z.to_nat m).
Proof.
  split; [apply ClauseMoreFacts.batch_go_selection|].
  intros Hm. unfold batch_simplify.
  rewrite <- (length_map (fun b => (original (br_result b), br_type b))),
    ClauseMoreFacts.batch_go_selection, length_map.
  etransitivity; [apply filter_length_le|]. apply ClauseMoreFacts.list_slice_to_length, Hm.
Qed.

(** X9 ([batch_simplify]): when every service call returns, no result has
    an error: the skipped short clauses include the empty one, so the
    division by the clause length never fails. *)
Theorem batch_simplify_no_error svc clauses m :
  (forall k, exists r, svc k = Returned r) ->
  Forall (fun b => error (br_result b) = None) (batch_simplify svc clauses m).
Proof. intros H. apply ClauseMoreFacts.batch_go_no_error, H. Qed.

Lemma batch_simplify_no_error_witness :
  let svc := fun _ : nat => Returned "The party keeps the information secret." in
  let clauses :=
    [{| cd_number := Some "1"; cd_title := None;
        cd_content := Some "The Receiving Party shall hold all Confidential Information in strict confidence.";
        cd_type := Some "Confidentiality"; cd_word_count := Some 12%Z |};
     {| cd_number := None; cd_title := None; cd_content := Some "";
        cd_type := None; cd_word_count := None |}] in
  (forall k, exists r, svc k = Returned r) /\
  Forall (fun b => error (br_result b) = None) (batch_simplify svc clauses 10).
Proof.
  intros svc clauses.
  assert (H : forall k, exists r, svc k = Returned r) by (intros k; eexists; reflexivity).
  split; [exact H|]. exact (batch_simplify_no_error svc clauses 10%Z H).
Defined.

(** X10 ([get_clause_summary]): [total_clauses] is the number of clauses, the
    [clause_types] keys are distinct, their counts sum to [total_clauses],
    and each type is mapped to the number of clauses of that type (default
    'General'), types of no clause being absent. *)
Theorem get_clause_summary_counts clauses :
  let s := get_clause_summary clauses in
  total_clauses s = List.length clauses /\
  NoDup (map fst (summary_clause_types s)) /\
  list_sum (map snd (summary_clause_types s)) = total_clauses s /\
  (forall t,
     let n := List.length (filter (fun c => String.eqb (get_or "General" (cd_type c)) t) clauses) in
     NER.dict_get t (summary_clause_types s) = if Nat.eqb n 0 then None else Some n).
Proof.
  intros s.
  assert (Hs : total_clauses s = List.length clauses /\
               summary_clause_types s = count_types clauses).
  { unfold s, get_clause_summary. destruct clauses; split; reflexivity. }
  destruct Hs as [Ht Hc]. rewrite Hc, Ht. unfold count_types.
  destruct (ClauseMoreFacts.count_types_go clauses []) as [H1 [H2 [H3 H4]]].
  split; [reflexivity|]. split; [apply H2; constructor|]. split; [transitivity (list_sum (map snd (@nil (string * nat))) + List.length clauses); [exact H1|reflexivity]|].
  intros t. cbv zeta. specialize (H4 t). cbv zeta in H4, H3. cbn [NER.dict_get get_or] in H4.
  set (n := List.length (filter _ clauses)) in *.
  destruct (NER.dict_get t _) as [v|] eqn:E; simpl in H4.
  - apply ClauseMoreFacts.dict_get_in in E.
    specialize (H3 (Forall_nil _)). rewrite Forall_forall in H3. specialize (H3 _ E).
    simpl in H3. destruct (Nat.eqb_spec n 0); [lia|]. congruence.
  - rewrite <- H4. reflexivity.
Qed.

End ClauseAnalyzerExtras.

Section NERExtras.
Import NER PyStr.
Local Open Scope string_scope.

(** X11 ([_extract_legal_terms]): for any matcher, at most 15 distinct
    records, in non-increasing count order; each is a term of [legal_terms]
    with its number of matches (at least one) and the context of its first
    match; a matched term is kept unless 15 records are kept, all with a
    count at least its own. *)
Theorem extract_legal_terms_ranked tf text :
  let r := extract_legal_terms tf text in
  List.length r <= 15 /\
  NoDup r /\
  Sorted (fun a b => entity_count b <= entity_count a) r /\
  Forall (fun e => exists term st en rest,
            In term legal_terms /\ tf term (lower text) = (st, en) :: rest /\
            e = [("term", PStr term); ("count", PInt (S (List.length rest)));
                 ("context", PStr (get_context text st en))]) r /\
  (forall term st en rest,
     In term legal_terms -> tf term (lower text) = (st, en) :: rest ->
     In [("term", PStr term); ("count", PInt (S (List.length rest)));
         ("context", PStr (get_context text st en))] r \/
     (List.length r = 15 /\ Forall (fun e => S (List.length rest) <= entity_count e) r)).
Proof.
  intros r.
  destruct (NERMoreFacts.extract_legal_terms_loop tf text) as [f [Hf Hr]].
  fold r in Hr. rewrite Hr. clear r Hr.
  set (terms := concat (map f legal_terms)).
  pose proof (SortFacts.sort_desc_perm entity_count terms) as Hp.
  destruct (SortFacts.sorted_firstn_skipn entity_count 15 _ (SortFacts.sort_desc_sorted entity_count terms))
    as [Hs Hk].
  split; [rewrite length_firstn; lia|].
  split.
  { apply NERMoreFacts.NoDup_firstn'. apply (Permutation_NoDup (Permutation_sym Hp)).
    apply (NERMoreFacts.term_records_nodup text _ f Hf), NERMoreFacts.legal_terms_nodup. }
  split; [exact Hs|].
  split.
  { apply Forall_forall. intros e He. apply NERMoreFacts.in_firstn'' in He.
    apply (Permutation_in _ Hp) in He.
    exact (NERMoreFacts.term_records_in text _ f Hf legal_terms e He). }
  intros term st en rest Hin Ht.
  pose proof (NERMoreFacts.term_records_mem text _ f Hf legal_terms term st en rest Hin Ht) as Hm.
  apply (Permutation_in _ (Permutation_sym Hp)) in Hm.
  rewrite <- (firstn_skipn 15 (Py.sort_desc entity_count terms)) in Hm.
  apply in_app_or in Hm as [Hm|Hm]; [left; exact Hm|right].
  rewrite Forall_forall in Hk. specialize (Hk _ Hm). split.
  - rewrite length_firstn. apply Nat.min_l.
    set (L := Py.sort_desc entity_count terms) in *.
    assert (Hlen : List.length (firstn 15 L) + List.length (skipn 15 L) = List.length L)
      by (rewrite <- length_app, firstn_skipn; reflexivity).
    rewrite length_firstn in Hlen.
    destruct (skipn 15 L); [contradiction|]. cbn [List.length] in Hlen.
    destruct (Nat.min_spec 15 (List.length L)) as [[_ E]|[_ E]]; rewrite E in Hlen; lia.
  - exact Hk.
Qed.

(** X12 ([_extract_monetary_values]): every record has a [value] and it
    contains no comma, whatever the matches. *)
Theorem extract_monetary_values_comma_free m1 m2 m3 text :
  Forall (fun e => exists v, dict_get "value" e = Some (PStr v) /\
                             ~ In ","%char (list_ascii_of_string v))
         (extract_monetary_values m1 m2 m3 text).
Proof.
  apply Forall_forall. intros e He. apply NERMoreFacts.in_firstn'' in He.
  apply in_app_or in He as [He|He]; [|apply in_app_or in He as [He|He]];
    apply in_map_iff in He as [x [<- _]].
  - destruct x as [[[g0 g1] st] en]. eexists. split; [reflexivity|apply NERMoreFacts.remove_commas_free].
  - destruct x as [[[g0 g1] st] en]. eexists. split; [reflexivity|apply NERMoreFacts.remove_commas_free].
  - destruct x as [[[[g0 g1] g2] st] en]. eexists. split; [reflexivity|apply NERMoreFacts.remove_commas_free].
Qed.

(** X13 ([_extract_obligations]): every record is a (clause, keyword,
    'obligation') triple, the keyword is an obligation keyword and it occurs
    (case-insensitively) in the stripped clause that is reported. *)
Theorem extract_obligations_keyword_in_clause text :
  Forall (fun e => exists keyword clause,
            e = [("clause", PStr clause); ("keyword", PStr keyword); ("type", PStr "obligation")] /\
            In keyword obligation_keywords /\
            contains (lower keyword) (lower clause) = true)
         (extract_obligations text).
Proof.
  apply Forall_forall. intros e He. unfold extract_obligations in He.
  apply NERMoreFacts.in_firstn'' in He.
  apply in_concat in He as [r [Hr He]]. apply in_map_iff in Hr as [sentence [<- _]].
  destruct (find _ obligation_keywords) as [k|] eqn:Hf; [|contradiction].
  destruct He as [<-|[]]. apply find_some in Hf as [Hk Hc].
  exists k, (strip sentence). split; [reflexivity|]. split; [exact Hk|].
  rewrite StrFacts.lower_strip. apply NERMoreFacts.word_ends_strip; [|exact Hc].
  pose proof NERMoreFacts.obligation_keywords_ends as H. rewrite forallb_forall in H.
  exact (H k Hk).
Qed.

(** X14 ([_get_context]): the context is a piece of the text of length at
    most [min(len(text), end+50) - max(0, start-50)], prefixed by '...'
    exactly when [start > 50] and suffixed by '...' exactly when
    [end + 50 < len(text)]. *)
Theorem get_context_shape text st en :
  exists core,
    get_context text st en =
      ((if Nat.ltb 50 st then "..." else "") ++ core ++
       (if Nat.ltb (en + 50) (String.length text) then "..." else "")) /\
    StrFacts.sub core text /\
    String.length core <= Nat.min (String.length text) (en + 50) - (st - 50).
Proof.
  unfold get_context.
  set (a := st - 50). set (b := Nat.min (String.length text) (en + 50)).
  exists (strip (slice text a b)). split; [|split].
  - assert (E1 : Nat.ltb 0 a = Nat.ltb 50 st).
    { unfold a. destruct (Nat.ltb_spec 0 (st - 50)), (Nat.ltb_spec 50 st); lia. }
    assert (E2 : Nat.ltb b (String.length text) = Nat.ltb (en + 50) (String.length text)).
    { unfold b. destruct (Nat.ltb_spec (Nat.min (String.length text) (en + 50)) (String.length text)),
        (Nat.ltb_spec (en + 50) (String.length text)); lia. }
    rewrite E1, E2.
    destruct (Nat.ltb 50 st), (Nat.ltb (en + 50) (String.length text));
      cbn [String.append]; rewrite ?StrFacts.str_app_nil, ?StrFacts.str_app_assoc; reflexivity.
  - apply (StrFacts.sub_trans _ (slice text a b)); [apply StrFacts.strip_sub|].
    apply NERMoreFacts.substring_sub.
  - etransitivity; [apply StrFacts.strip_length|]. apply NERMoreFacts.substring_length_le.
Qed.

End NERExtras.

Section GraniteExtras.
Import Granite PyStr.
Local Open Scope string_scope.

(** X15 ([_generate_huggingface]): the extracted reply never contains
    'Assistant:', is a piece of the decoded response, and is the response
    itself when the marker does not occur. *)
Theorem extract_assistant_reply_spec response :
  contains "Assistant:" (extract_assistant_reply response) = false /\
  StrFacts.sub (extract_assistant_reply response) response /\
  (contains "Assistant:" response = false -> extract_assistant_reply response = response).
Proof.
  unfold extract_assistant_reply. destruct (contains "Assistant:" response) eqn:E.
  - destruct (GraniteFacts.last_split_sep (S (String.length response)) "Assistant:" response
                ltac:(discriminate) ltac:(lia)) as [Hc [p Hp]].
    fold (split_sep "Assistant:" response) in Hc, Hp.
    split; [|split; [|discriminate]].
    + destruct (contains "Assistant:" (strip _)) eqn:Hs; [|reflexivity].
      rewrite (StrFacts.strip_contains _ _ Hs) in Hc. discriminate.
    + apply (StrFacts.sub_trans _ (last (split_sep "Assistant:" response) ""));
        [apply StrFacts.strip_sub|]. exists p, "". rewrite StrFacts.str_app_nil. exact Hp.
  - split; [exact E|]. split; [exists "", ""; rewrite StrFacts.str_app_nil; reflexivity|].
    intros _; reflexivity.
Qed.

End GraniteExtras.

Module PartiesFacts.
Import NER.
Local Open Scope string_scope.
Local Open Scope list_scope.




End PartiesFacts.

Section PartiesExtras.
Import NER.
Local Open Scope string_scope.
Local Open Scope list_scope.



End PartiesExtras.
